(** * Camelot: status histories, get-or-create, validation and import model

    A shallow embedding of the parts of the Camelot framework that carry
    behaviour of their own:

    - [camelot/model/type_and_status.py]: the temporal status history
      ([StatusMixin.change_status], [get_status_history_at],
      [current_status] and its SQL expression);
    - [camelot/model/party.py]: [Country.get_or_create],
      [Address.get_or_create], [PartyAddress.__setattr__] and
      [PartyAdmin.flush];
    - [camelot/admin/validator/entity_validator.py]:
      [EntityValidator.validate_object];
    - [camelot/view/controls/editors-bak/embeddedmany2oneeditor.py]: the
      model function of [EmbeddedMany2OneEditor.setEntity];
    - [camelot/view/wizard/import_data.py]: [InputTableModel].

    Database tables are lists of rows in insertion order, the primary key
    [id] being handed out by the database in increasing order.  Dates are
    proleptic Gregorian ordinals ([datetime.date.toordinal]), so that
    [d - datetime.timedelta(days = 1)] is [d - 1]; at [datetime.date.min],
    which has no day before it, the subtraction raises [OverflowError]. *)

From Stdlib Require Import ZArith List Bool Lia Sorted.
From Stdlib Require Import Strings.String Strings.Ascii.
From stdpp Require Import base gmap list strings.
Import ListNotations.

(** ** Python exceptions and results *)

(** Who raised an exception: the interpreter and its standard library, the
    ORM or the database below it, the GUI toolkit, or a [raise] statement of
    the repository's own code. *)
Inductive origin := Interpreter | ORM | Toolkit | OwnCode.

Record exn := mkExn {
  exn_origin : origin;
  exn_type : string;
  exn_message : string }.

Inductive result (A : Type) :=
| Ok (a : A)
| Raise (e : exn).
Arguments Ok {A} a.
Arguments Raise {A} e.

(** Sequencing: an exception raised by the first statement propagates. *)
#[global] Instance result_bind : MBind result :=
  fun A B (k : A -> result B) (c : result A) =>
    match c with
    | Ok a => k a
    | Raise e => Raise e
    end.

(** An exception is passed through when it was raised below the repository,
    by the ORM (or its database) or by the toolkit. *)
Definition passed_through (e : exn) : Prop :=
  exn_origin e = ORM \/ exn_origin e = Toolkit.

(** ** Dates *)

Abbreviation date := Z.

(** A keyword argument with a default that is not [None]: left out by the
    caller, or passed. *)
Inductive kwarg (A : Type) :=
| Omitted
| Passed (a : A).
Arguments Omitted {A}.
Arguments Passed {A} a.

Definition TypeError_date_None : exn :=
  mkExn Interpreter "TypeError" "can't compare datetime.date to NoneType".

(** [datetime.date.min], 1 January of year 1: the day with ordinal 1. *)
Definition date_min : date := 1.

Definition OverflowError_date : exn :=
  mkExn Interpreter "OverflowError" "date value out of range".

(** [d - datetime.timedelta( days = 1 )]: the day before [d], which
    [datetime.date.min] does not have. *)
Definition minus_one_day (d : date) : result date :=
  if (date_min <? d)%Z then Ok (d - 1)%Z else Raise OverflowError_date.

Definition AttributeError_NoneType_query : exn :=
  mkExn Interpreter "AttributeError"
    "'NoneType' object has no attribute 'query'".

(** ** [camelot/model/type_and_status.py] *)

Module TypeAndStatus.
Local Open Scope Z_scope.

Section Status.

(** The type of the [classified_by] column: the enumeration given to
    [Status], or the generated status type entity. *)
Context {status_type : Type}.

(** [camelot.model.authentication.end_of_times()], a constant date. *)
Variable end_of_times : date.

(** A row of the generated [<entity>_status] table.  The three status date
    columns are nullable, [from_date] and [thru_date] are not. *)
Record StatusHistory := mkStatusHistory {
  id : Z;
  status_for : Z;
  classified_by : status_type;
  status_datetime : option date;
  status_from_date : option date;
  status_thru_date : option date;
  from_date : date;
  thru_date : date }.

(** *** SQL expressions: comparisons with NULL are unknown, and a row is
    selected only when the where clause is true. *)

Definition sql_le (a b : option date) : option bool :=
  match a, b with
  | Some x, Some y => Some (x <=? y)
  | _, _ => None
  end.

Definition sql_ge (a b : option date) : option bool := sql_le b a.

Definition sql_and (p q : option bool) : option bool :=
  match p, q with
  | Some false, _ | _, Some false => Some false
  | Some true, Some true => Some true
  | _, _ => None
  end.

Definition sql_where (p : option bool) : bool :=
  match p with
  | Some true => true
  | _ => false
  end.

(** [sql.and_( history_type.status_for == self,
               history_type.status_from_date <= status_from_date,
               history_type.status_thru_date >= status_from_date )] *)
Definition old_status_filter (self : Z) (status_from_date' : date)
    (h : StatusHistory) : bool :=
  sql_where
    (sql_and (Some (status_for h =? self))
       (sql_and (sql_le (status_from_date h) (Some status_from_date'))
                (sql_ge (status_thru_date h) (Some status_from_date')))).

(** The primary key the database hands to the next inserted row. *)
Definition next_id (rows : list StatusHistory) : Z :=
  1 + fold_right Z.max 0 (map id rows).

(** The two assignments to [old_status], written back by the flush as an
    UPDATE of the row with that primary key, once both subtractions have
    given a date (see [minus_one_day] and [StatusMixin.change_status]
    below). *)
Definition supersede (today status_from_date' : date) (h : StatusHistory)
    : StatusHistory :=
  mkStatusHistory (id h) (status_for h) (classified_by h) (status_datetime h)
    (status_from_date h) (Some (status_from_date' - 1))
    (from_date h) (today - 1).

Definition update_row (pk : Z) (f : StatusHistory -> StatusHistory)
    (rows : list StatusHistory) : list StatusHistory :=
  map (fun h => if id h =? pk then f h else h) rows.

(** The status table a call of [StatusMixin.change_status] leaves behind
    when it returns, from the rows of the status table of the session [self]
    lives in.  [today] is [datetime.date.today()].  The call itself, with
    the exceptions that keep it from returning, is
    [StatusMixin.change_status] below. *)
Definition change_status (today : date) (self : Z) (new_status : status_type)
    (status_from_date' : option date) (status_thru_date' : kwarg (option date))
    (rows : list StatusHistory) : list StatusHistory :=
  let status_thru_date' :=
    match status_thru_date' with
    | Omitted => Some end_of_times
    | Passed d => d
    end in
  let status_from_date' :=
    match status_from_date' with
    | None => today
    | Some d => d
    end in
  let old_status := List.find (old_status_filter self status_from_date') rows in
  let rows :=
    match old_status with
    | Some old_status =>
        update_row (id old_status) (supersede today status_from_date') rows
    | None => rows
    end in
  let new_status :=
    mkStatusHistory (next_id rows) self new_status None
      (Some status_from_date') status_thru_date' today end_of_times in
  rows ++ [new_status].

(** The [status] collection of an entity: its rows of the status table. *)
Definition status (self : Z) (rows : list StatusHistory) : list StatusHistory :=
  List.filter (fun h => status_for h =? self) rows.

(** *** Python comparisons of dates: comparing with [None] raises. *)

Definition py_le (a b : option date) : result bool :=
  match a, b with
  | Some x, Some y => Ok (x <=? y)
  | _, _ => Raise TypeError_date_None
  end.

Definition py_ge (a b : option date) : result bool := py_le b a.

(** The loop of [get_status_history_at]; [and] evaluates its right operand
    only when the left one is true. *)
Fixpoint get_status_history_loop (status_date : date)
    (status : list StatusHistory) : result (option StatusHistory) :=
  match status with
  | [] => Ok None
  | status_history :: rest =>
      a ← py_le (status_from_date status_history) (Some status_date);
      if (a : bool) then
        b ← py_ge (status_thru_date status_history) (Some status_date);
        if (b : bool) then Ok (Some status_history)
        else get_status_history_loop status_date rest
      else get_status_history_loop status_date rest
  end.

(** [StatusMixin.get_status_history_at] *)
Definition get_status_history_at (today : date) (status : list StatusHistory)
    (status_date : option date) : result (option StatusHistory) :=
  let status_date :=
    match status_date with
    | None => today
    | Some d => d
    end in
  get_status_history_loop status_date status.

(** [StatusMixin.current_status], the Python side of the hybrid property. *)
Definition current_status (today : date) (status : list StatusHistory)
    : result (option status_type) :=
  status_history ← get_status_history_at today status None;
  match status_history with
  | Some status_history => Ok (Some (classified_by status_history))
  | None => Ok None
  end.

(** The where clause of [current_status_query]. *)
Definition current_status_filter (today : date) (status_class_id : Z)
    (h : StatusHistory) : bool :=
  sql_where
    (sql_and (Some (status_for h =? status_class_id))
       (sql_and (sql_le (status_from_date h) (Some today))
                (sql_ge (status_thru_date h) (Some today)))).

(** [ORDER BY id DESC LIMIT 1]: the selected row with the greatest [id]. *)
Fixpoint order_by_id_desc_limit_1 (rows : list StatusHistory)
    : option StatusHistory :=
  match rows with
  | [] => None
  | h :: rest =>
      match order_by_id_desc_limit_1 rest with
      | Some h' => if id h' <? id h then Some h else Some h'
      | None => Some h
      end
  end.

(** [StatusMixin.current_status_query], evaluated as a scalar subquery on
    the status table: NULL ([None]) when no row is selected. *)
Definition current_status_query (today : date) (status_class_id : Z)
    (rows : list StatusHistory) : option status_type :=
  option_map classified_by
    (order_by_id_desc_limit_1
       (List.filter (current_status_filter today status_class_id) rows)).

(** *** Notions the properties of status histories are stated with *)

(** The validity interval [[status_from_date, status_thru_date]] of a record
    contains the date [d]. *)
Definition in_range (d : date) (h : StatusHistory) : Prop :=
  exists f t, status_from_date h = Some f /\ status_thru_date h = Some t /\
              f <= d <= t.

(** The same as a test, the way the database evaluates it. *)
Definition valid_at (d : date) (h : StatusHistory) : bool :=
  sql_where (sql_and (sql_le (status_from_date h) (Some d))
                     (sql_ge (status_thru_date h) (Some d))).

(** No two records of a collection have a date in common. *)
Definition non_overlapping (l : list StatusHistory) : Prop :=
  ForallOrdPairs (fun a b => forall d, ~ (in_range d a /\ in_range d b)) l.

(** One call of [change_status], with the day it is made on. *)
Record call := mkCall {
  call_today : date;
  call_self : Z;
  call_new_status : status_type;
  call_from_date : option date;
  call_thru_date : kwarg (option date) }.

Definition apply_call (rows : list StatusHistory) (c : call)
    : list StatusHistory :=
  change_status (call_today c) (call_self c) (call_new_status c)
    (call_from_date c) (call_thru_date c) rows.

(** A sequence of calls, one after the other. *)
Definition run (calls : list call) (rows : list StatusHistory)
    : list StatusHistory :=
  fold_left apply_call calls rows.

(** The date a call makes its new status start at. *)
Definition effective_from_date (c : call) : date :=
  match call_from_date c with
  | None => call_today c
  | Some d => d
  end.

(** The calls made on [self] come in the order of the dates their statuses
    start at. *)
Definition chronological (self : Z) (calls : list call) : Prop :=
  Sorted Z.le
    (map effective_from_date
       (List.filter (fun c => call_self c =? self) calls)).

(** The primary key is unique. *)
Definition primary_key (rows : list StatusHistory) : Prop :=
  List.NoDup (map id rows).

(** *** The rest of [StatusMixin], and the [ChangeStatus] action *)

Section StatusFromDate.

(** [status_history.classified_by == classified_by] *)
Context `{!EqDecision status_type}.

(** [list.sort( key = ..., reverse = True )]: a stable sort by decreasing
    key; records with equal keys keep the order they came in. *)
Fixpoint sort_insert_reverse (key : StatusHistory -> Z) (h : StatusHistory)
    (sorted : list StatusHistory) : list StatusHistory :=
  match sorted with
  | [] => [h]
  | x :: rest =>
      if key x <=? key h then h :: x :: rest
      else x :: sort_insert_reverse key h rest
  end.

Definition sort_reverse (key : StatusHistory -> Z) (l : list StatusHistory)
    : list StatusHistory :=
  fold_right (sort_insert_reverse key) [] l.

(** [StatusMixin.get_status_from_date] *)
Definition get_status_from_date (status' : list StatusHistory)
    (classified_by' : status_type) : option date :=
  let status_histories :=
    List.filter (fun status_history =>
                   bool_decide (classified_by status_history = classified_by'))
      status' in
  if (0 <? length status_histories)%nat then
    match sort_reverse from_date status_histories with
    | status_history :: _ => Some (from_date status_history)
    | [] => None
    end
  else None.

End StatusFromDate.

(** [ChangeStatus.model_run]: the status of every object of the selection
    is changed to [new_status], with the default dates; the session is
    flushed at the end. *)
Definition model_run (today : date) (new_status : status_type)
    (selection : list Z) (rows : list StatusHistory) : list StatusHistory :=
  fold_left
    (fun rows obj => change_status today obj new_status None Omitted rows)
    selection rows.

End Status.

(** *** [StatusMixin.change_status], the call *)

Module StatusMixin.

Section Call.

Context {status_type : Type}.
Variable end_of_times : date.

(** [StatusMixin.change_status] on an entity [self] that is mapped.
    [object_session] is what [orm.object_session( self )] returns: [None],
    or the session, of which the rows of the status table are what the call
    reads and writes.  Without a session [session.query] raises
    [AttributeError].  When a record is to be superseded, the two
    subtractions of a day come before the new record is made and before the
    flush: an [OverflowError] out of either leaves the call with nothing
    written to the table (an assignment made before it stays pending on the
    object in the session). *)
Definition change_status (today : date) (self : Z) (new_status : status_type)
    (status_from_date' : option date) (status_thru_date' : kwarg (option date))
    (object_session : option (list (@StatusHistory status_type)))
    : result (list (@StatusHistory status_type)) :=
  let status_thru_date' :=
    match status_thru_date' with
    | Omitted => Some end_of_times
    | Passed d => d
    end in
  let status_from_date' :=
    match status_from_date' with
    | None => today
    | Some d => d
    end in
  match object_session with
  | None => Raise AttributeError_NoneType_query
  | Some rows =>
      let old_status :=
        List.find (old_status_filter self status_from_date') rows in
      rows ←
        match old_status with
        | Some old_status =>
            old_thru_date ← minus_one_day today;
            old_status_thru_date ← minus_one_day status_from_date';
            Ok (update_row (id old_status)
                  (fun h =>
                     mkStatusHistory (id h) (status_for h) (classified_by h)
                       (status_datetime h) (status_from_date h)
                       (Some old_status_thru_date) (from_date h)
                       old_thru_date)
                  rows)
        | None => Ok rows
        end;
      let new_status :=
        mkStatusHistory (next_id rows) self new_status None
          (Some status_from_date') status_thru_date' today end_of_times in
      Ok (rows ++ [new_status])
  end.

(** A sequence of calls on entities of one session, each made once the one
    before has returned; an exception ends the sequence. *)
Fixpoint run (calls : list (@call status_type))
    (rows : list (@StatusHistory status_type))
    : result (list (@StatusHistory status_type)) :=
  match calls with
  | [] => Ok rows
  | c :: calls =>
      rows ← change_status (call_today c) (call_self c) (call_new_status c)
               (call_from_date c) (call_thru_date c) (Some rows);
      run calls rows
  end.

End Call.

End StatusMixin.

(** *** [ChangeStatus.model_run], the loop of calls *)

Module ChangeStatus.

Section Action.

Context {status_type : Type}.
Variable end_of_times : date.

(** [ChangeStatus.model_run] on a selection of objects of one session: an
    exception out of a [change_status] ends the loop. *)
Fixpoint model_run (today : date) (new_status : status_type)
    (selection : list Z) (rows : list (@StatusHistory status_type))
    : result (list (@StatusHistory status_type)) :=
  match selection with
  | [] => Ok rows
  | obj :: selection =>
      rows ← StatusMixin.change_status end_of_times today obj new_status None
               Omitted (Some rows);
      model_run today new_status selection rows
  end.

End Action.

End ChangeStatus.

End TypeAndStatus.

(** ** The ORM session, as far as the code below looks into it *)

(** Objects are known by their identity.  [deleted] is [session.deleted],
    the objects marked for deletion; [persistent] are the objects that have
    a row in the database. *)
Record Session := mkSession {
  persistent : gset Z;
  deleted : gset Z }.

(** [session.delete( obj )] marks the object. *)
Definition Session_delete (obj : Z) (session : Session) : Session :=
  mkSession (persistent session) ({[obj]} ∪ deleted session).

(** [session.flush( objects )] writes the listed objects out: those marked
    for deletion lose their row, the others get or keep one. *)
Definition Session_flush (objects : list Z) (session : Session) : Session :=
  let objects : gset Z := list_to_set objects in
  mkSession ((persistent session ∪ objects) ∖ (deleted session ∩ objects))
            (deleted session ∖ objects).

(** ** [camelot/model/party.py] *)

Module Party.
Local Open Scope Z_scope.

(** The primary key the database hands to the next inserted row. *)
Definition next_id {A : Type} (id : A -> Z) (rows : list A) : Z :=
  1 + fold_right Z.max 0 (map id rows).

Module GeographicBoundary.

(** [row_type], the polymorphic identity of a row, with what the table of
    the subclass adds to it: a city has the country it belongs to, by
    primary key. *)
Inductive polymorphic_identity :=
| country
| city (country_id : Z).

(** A row of the [geographic_boundary] table, which holds the countries and
    the cities alike: both subclasses have the [id] of their row of this
    table as primary key.  [code] is nullable, [name] is required. *)
Record t := mk {
  id : Z;
  code : option string;
  name : string;
  row_type : polymorphic_identity }.

End GeographicBoundary.

Module Country.

(** [Country.query.filter_by( code = code )]: the rows of the subclass,
    with the code; the comparison is [IS NULL] when [code] is [None]. *)
Definition filter_by (code' : option string) (g : GeographicBoundary.t)
    : bool :=
  match GeographicBoundary.row_type g with
  | GeographicBoundary.country =>
      bool_decide (GeographicBoundary.code g = code')
  | GeographicBoundary.city _ => false
  end.

(** [Country.get_or_create], on the rows of the [geographic_boundary]
    table. *)
Definition get_or_create (code' : option string) (name' : string)
    (rows : list GeographicBoundary.t)
    : GeographicBoundary.t * list GeographicBoundary.t :=
  let country := List.find (filter_by code') rows in
  match country with
  | Some country => (country, rows)
  | None =>
      let country :=
        GeographicBoundary.mk (next_id GeographicBoundary.id rows) code' name'
          GeographicBoundary.country in
      (country, rows ++ [country])
  end.

End Country.

Module Address.

(** An address row; [street1] and [city] are required, [city] refers to a
    city, a row of the [geographic_boundary] table. *)
Record t := mk {
  id : Z;
  street1 : string;
  street2 : option string;
  city : Z }.

(** [filter_by( street1 = street1, street2 = street2, city = city )] *)
Definition filter_by (street1' : string) (street2' : option string)
    (city' : Z) (a : t) : bool :=
  bool_decide (street1 a = street1')
  && bool_decide (street2 a = street2')
  && bool_decide (city a = city').

(** [Address.get_or_create], on the rows of the address table. *)
Definition get_or_create (street1' : string) (street2' : option string)
    (city' : Z) (rows : list t) : t * list t :=
  let address := List.find (filter_by street1' street2' city') rows in
  match address with
  | Some address => (address, rows)
  | None =>
      let address := mk (next_id id rows) street1' street2' city' in
      (address, rows ++ [address])
  end.

End Address.

Module City.

(** [City.query.filter_by( code = code, country = country )]: the rows of
    the subclass, with the code, in the country. *)
Definition filter_by (code' : option string) (country' : Z)
    (g : GeographicBoundary.t) : bool :=
  match GeographicBoundary.row_type g with
  | GeographicBoundary.city country_id =>
      bool_decide (GeographicBoundary.code g = code')
      && bool_decide (country_id = country')
  | GeographicBoundary.country => false
  end.

(** [City.get_or_create], on the rows of the [geographic_boundary] table;
    [country'] is the primary key of the country. *)
Definition get_or_create (country' : Z) (code' : option string)
    (name' : string) (rows : list GeographicBoundary.t)
    : GeographicBoundary.t * list GeographicBoundary.t :=
  let city := List.find (filter_by code' country') rows in
  match city with
  | Some city => (city, rows)
  | None =>
      let city :=
        GeographicBoundary.mk (next_id GeographicBoundary.id rows) code' name'
          (GeographicBoundary.city country') in
      (city, rows ++ [city])
  end.

End City.

(** *** Contact mechanisms of a party *)

(** A party contact mechanism object: its identity, its primary key
    ([None] until it is flushed) and the contact mechanism object it refers
    to. *)
Record PartyContactMechanism := mkPartyContactMechanism {
  pcm_ident : Z;
  pcm_id : option Z;
  contact_mechanism : option Z }.

(** A party with what its contact mechanisms reach: [self.contact_mechanisms],
    the [mechanism] attribute (a virtual address, kind and address, or
    [None]) of the contact mechanism objects, by identity, and the session
    of the party contact mechanisms, if they have one. *)
Record PartyState := mkPartyState {
  party_contact_mechanisms : list PartyContactMechanism;
  mechanisms : gmap Z (option (string * string));
  party_session : option Session }.

(** [contact_mechanism.mechanism] of a party contact mechanism, when both
    are there. *)
Definition mechanism_of (mechanisms' : gmap Z (option (string * string)))
    (party_contact_mechanism : PartyContactMechanism)
    : option (string * string) :=
  match contact_mechanism party_contact_mechanism with
  | Some cm =>
      match mechanisms' !! cm with
      | Some (Some mechanism) => Some mechanism
      | _ => None
      end
  | None => None
  end.

(** The loop of [Party._get_contact_mechanism]. *)
Fixpoint _get_contact_mechanism_loop
    (mechanisms' : gmap Z (option (string * string))) (described_by : string)
    (contact_mechanisms' : list PartyContactMechanism)
    : option (string * string) :=
  match contact_mechanisms' with
  | [] => None
  | party_contact_mechanism :: rest =>
      match mechanism_of mechanisms' party_contact_mechanism with
      | Some mechanism =>
          if bool_decide (mechanism.1 = described_by) then Some mechanism
          else _get_contact_mechanism_loop mechanisms' described_by rest
      | None => _get_contact_mechanism_loop mechanisms' described_by rest
      end
  end.

(** [Party._get_contact_mechanism], which the [email], [phone] and [fax]
    properties read through. *)
Definition _get_contact_mechanism (self : PartyState) (described_by : string)
    : option (string * string) :=
  _get_contact_mechanism_loop (mechanisms self) described_by
    (party_contact_mechanisms self).

(** [value and value[1]] *)
Definition has_address (v : option (string * string)) : bool :=
  match v with
  | Some (_, address) => negb (String.eqb address "")
  | None => false
  end.

(** [if party_contact_mechanism.id:] *)
Definition has_id (party_contact_mechanism : PartyContactMechanism) : bool :=
  match pcm_id party_contact_mechanism with
  | Some n => negb (n =? 0)
  | None => false
  end.

Definition AttributeError_None : exn :=
  mkExn Interpreter "AttributeError" "'NoneType' object has no attribute".

(** The identities in use: a new object gets one that is none of them. *)
Definition identities (self : PartyState) : gset Z :=
  dom (mechanisms self)
  ∪ list_to_set (omap contact_mechanism (party_contact_mechanisms self))
  ∪ list_to_set (map pcm_ident (party_contact_mechanisms self))
  ∪ match party_session self with
    | Some session => persistent session ∪ deleted session
    | None => ∅
    end.

(** The loop of [Party._set_contact_mechanism], over the party contact
    mechanisms [rest] that follow those already [skipped]; [None] when the
    loop ends without returning. *)
Fixpoint _set_contact_mechanism_loop (self : PartyState)
    (described_by : string) (v : option (string * string))
    (skipped rest : list PartyContactMechanism)
    : option (result PartyState) :=
  match rest with
  | [] => None
  | party_contact_mechanism :: rest' =>
      match mechanism_of (mechanisms self) party_contact_mechanism,
            contact_mechanism party_contact_mechanism with
      | Some mechanism, Some cm =>
          if bool_decide (mechanism.1 = described_by) then
            if has_address v then
              Some (Ok (mkPartyState (party_contact_mechanisms self)
                          (<[cm := v]> (mechanisms self))
                          (party_session self)))
            else
              let contact_mechanisms' := skipped ++ rest' in
              if has_id party_contact_mechanism then
                match party_session self with
                | Some session =>
                    Some (Ok (mkPartyState contact_mechanisms'
                                (mechanisms self)
                                (Some (Session_delete
                                         (pcm_ident party_contact_mechanism)
                                         session))))
                | None => Some (Raise AttributeError_None)
                end
              else
                Some (Ok (mkPartyState contact_mechanisms' (mechanisms self)
                            (party_session self)))
          else
            _set_contact_mechanism_loop self described_by v
              (skipped ++ [party_contact_mechanism]) rest'
      | _, _ =>
          _set_contact_mechanism_loop self described_by v
            (skipped ++ [party_contact_mechanism]) rest'
      end
  end.

(** [Party._set_contact_mechanism], which the setters of [email], [phone]
    and [fax] write through. *)
Definition _set_contact_mechanism (self : PartyState) (described_by : string)
    (v : option (string * string)) : result PartyState :=
  match _set_contact_mechanism_loop self described_by v []
          (party_contact_mechanisms self) with
  | Some returned => returned
  | None =>
      if has_address v then
        let contact_mechanism' := fresh (identities self) in
        let party_contact_mechanism :=
          mkPartyContactMechanism
            (fresh ({[contact_mechanism']} ∪ identities self)) None
            (Some contact_mechanism') in
        Ok (mkPartyState
              (party_contact_mechanisms self ++ [party_contact_mechanism])
              (<[contact_mechanism' := v]> (mechanisms self))
              (party_session self))
      else Ok self
  end.

(** The party contact mechanism has a mechanism of the kind
    [described_by]: the test both loops make. *)
Definition is_kind (mechanisms' : gmap Z (option (string * string)))
    (described_by : string) (party_contact_mechanism : PartyContactMechanism)
    : bool :=
  match mechanism_of mechanisms' party_contact_mechanism with
  | Some mechanism => bool_decide (mechanism.1 = described_by)
  | None => false
  end.

(** [PartyContactMechanism.mechanism], the getter. *)
Definition mechanism (self : PartyContactMechanism)
    (mechanisms' : gmap Z (option (string * string)))
    : option (string * string) :=
  match contact_mechanism self with
  | Some cm => default None (mechanisms' !! cm)
  | None => None
  end.

(** [PartyContactMechanism.mechanism], the setter. *)
Definition mechanism_setter (self : PartyContactMechanism)
    (v : option (string * string))
    (mechanisms' : gmap Z (option (string * string)))
    : PartyContactMechanism * gmap Z (option (string * string)) :=
  match v with
  | Some _ =>
      match contact_mechanism self with
      | Some cm => (self, <[cm := v]> mechanisms')
      | None =>
          let cm := fresh (dom mechanisms') in
          (mkPartyContactMechanism (pcm_ident self) (pcm_id self) (Some cm),
           <[cm := v]> mechanisms')
      end
  | None => (self, mechanisms')
  end.

(** [PartyCategory.get_contact_mechanisms]: the addresses the generator
    yields, over the [contact_mechanisms] of the parties of the category. *)
Definition get_contact_mechanisms
    (mechanisms' : gmap Z (option (string * string)))
    (parties : list (list PartyContactMechanism))
    (virtual_address_type : string) : list string :=
  flat_map
    (fun party =>
       flat_map
         (fun party_contact_mechanism =>
            match mechanism_of mechanisms' party_contact_mechanism with
            | Some virtual_address =>
                if bool_decide (virtual_address.1 = virtual_address_type)
                then [virtual_address.2]
                else []
            | None => []
            end)
         party)
    parties.

(** *** [PartyAddress] and its virtual [address_*] attributes *)

(** What an attribute of a [PartyAddress] or of an [Address] object holds:
    [None], a unicode string, or a reference to an entity object. *)
Inductive value :=
| VNone
| VUnicode (s : string)
| VEntity (ident : Z).

#[global] Instance value_eq_dec : EqDecision value.
Proof. solve_decision. Defined.

(** Truth value of [if v:]. *)
Definition truthy (v : value) : bool :=
  match v with
  | VNone => false
  | VUnicode s => negb (String.eqb s "")
  | VEntity _ => true
  end.

(** Reading an attribute that [__new__] or the mapper initialised: [None]
    until something else is stored. *)
Definition getattr (self : gmap string value) (attr : string) : value :=
  default VNone (self !! attr).

Definition AttributeError_unicode : exn :=
  mkExn Interpreter "AttributeError" "'unicode' object has no attribute".

(** [PartyAddress.__setattr__].  [self] is the attribute dictionary of the
    party address, [addresses] holds the attribute dictionaries of the
    [Address] objects, by identity: an [Address] can be shared by several
    party addresses.  [attr[len('address_'):]] is the rest of [attr] after
    its first eight characters. *)
Definition __setattr__ (self : gmap string value) (attr : string) (v : value)
    (addresses : gmap Z (gmap string value))
    : result (gmap string value * gmap Z (gmap string value)) :=
  if String.prefix "address_" attr then
    let rest := String.substring 8 (String.length attr - 8)%nat attr in
    let self := <[String.append "_address_" rest := v]> self in
    if truthy (getattr self "address") then
      match getattr self "address" with
      | VEntity a => Ok (self, alter (fun d => <[rest := v]> d) a addresses)
      | _ => Raise AttributeError_unicode
      end
    else if bool_decide (getattr self "_address_street1" ≠ VNone)
            && bool_decide (getattr self "_address_city" ≠ VNone) then
      let a := fresh (dom addresses) in
      let address : gmap string value :=
        <["street1" := getattr self "_address_street1"]>
          (<["city" := getattr self "_address_city"]> ∅) in
      Ok (<["address" := VEntity a]> self, <[a := address]> addresses)
    else Ok (self, addresses)
  else Ok (<[attr := v]> self, addresses).

(** [PartyAddress.__new__]: the three hidden attributes start as [None]. *)
Definition __new__ : gmap string value :=
  <["_address_city" := VNone]>
    (<["_address_street2" := VNone]>
       (<["_address_street1" := VNone]> ∅)).

Definition AttributeError_missing : exn :=
  mkExn Interpreter "AttributeError" "object has no attribute".

Section GetAttr.

(** What reading an attribute of an [Address] gives when the object holds
    no value for it: [None] for a mapped column, nothing (an
    [AttributeError]) for a name the class does not have. *)
Variable Address_default : string -> option value.

(** [PartyAddress.__getattr__], called for the names that are no attribute
    of the object. *)
Definition __getattr__ (self : gmap string value) (attr : string)
    (addresses : gmap Z (gmap string value)) : result value :=
  if String.prefix "address_" attr then
    let rest := String.substring 8 (String.length attr - 8)%nat attr in
    if truthy (getattr self "address") then
      match getattr self "address" with
      | VEntity a =>
          match default ∅ (addresses !! a) !! rest with
          | Some v => Ok v
          | None =>
              match Address_default rest with
              | Some v => Ok v
              | None => Raise AttributeError_missing
              end
          end
      | _ => Raise AttributeError_unicode
      end
    else
      match self !! String.append "_address_" rest with
      | Some v => Ok v
      | None => Raise AttributeError_missing
      end
  else Raise AttributeError_missing.

End GetAttr.

(** *** [Person.note] *)

Module Person.

(** A person as [note] sees it: its identity and the two names the query
    filters on. *)
Record t := mk {
  ident : Z;
  first_name : option string;
  last_name : option string }.

Definition same_name_exists : string :=
  "A person with the same name already exists".

(** The loop of [note] over the persons the query returns. *)
Fixpoint note_loop (self : t) (persons : list t) : option string :=
  match persons with
  | [] => None
  | person :: rest =>
      if bool_decide (ident person <> ident self) then Some same_name_exists
      else note_loop self rest
  end.

(** [Person.note], on the rows of the person table. *)
Definition note (self : t) (rows : list t) : option string :=
  note_loop self
    (List.filter (fun person =>
                    bool_decide (first_name person = first_name self)
                    && bool_decide (last_name person = last_name self))
       rows).

End Person.

(** *** [PartyAdmin.flush] *)

(** A party as [flush] sees it: its identity and its [contact_mechanisms]
    collection, each party contact mechanism with the contact mechanism it
    refers to. *)
Record PartyObject := mkParty {
  party_ident : Z;
  contact_mechanisms : list (Z * Z) }.

(** The loop of [PartyAdmin.flush] over [party.contact_mechanisms]. *)
Fixpoint flush_loop (deleted' : bool) (contact_mechanisms' : list (Z * Z))
    (objects : list Z) (session : Session) : list Z * Session :=
  match contact_mechanisms' with
  | [] => (objects, session)
  | (party_contact_mechanism, contact_mechanism) :: rest =>
      let session :=
        if deleted' then Session_delete party_contact_mechanism session
        else session in
      flush_loop deleted' rest
        (objects ++ [party_contact_mechanism; contact_mechanism]) session
  end.

(** [PartyAdmin.flush]; [object_session] is [Session.object_session( party )],
    and the result is the session afterwards, [None] when there is none. *)
Definition flush (object_session : option Session) (party : PartyObject)
    : option Session :=
  match object_session with
  | Some session =>
      let objects := [party_ident party] in
      let deleted' := bool_decide (party_ident party ∈ deleted session) in
      let '(objects, session) :=
        flush_loop deleted' (contact_mechanisms party) objects session in
      Some (Session_flush objects session)
  | None => None
  end.

End Party.

(** ** [camelot/admin/validator/entity_validator.py] *)

Module EntityValidator.

Section Validator.

(** [orm.object_session]: the session an object is attached to, [None]
    for a mapped object without one; it raises ([UnmappedInstanceError])
    when the object is no instance of a mapped class. *)
Variable object_session : Z -> result (option Session).

(** [ObjectValidator.validate_object], the validation of the base class. *)
Variable ObjectValidator_validate_object : Z -> result (list string).

(** [EntityValidator.validate_object] *)
Definition validate_object (obj : Z) : result (list string) :=
  session ← object_session obj;
  match session with
  | None => Ok []
  | Some session =>
      if bool_decide (obj ∈ deleted session) then Ok []
      else ObjectValidator_validate_object obj
  end.

End Validator.

End EntityValidator.

(** ** [camelot/view/controls/editors-bak/embeddedmany2oneeditor.py] *)

Module EmbeddedMany2OneEditor.

(** What an entity instance getter returns: the [ValueLoading] marker,
    [None], or an entity. *)
Inductive getter_value :=
| ValueLoading
| NoEntity
| Entity (ident : Z).

Definition Exception_Wooha : exn := mkExn OwnCode "Exception" "Wooha".

Section SetEntity.

(** The getter handed to [setEntity], and [self.admin.entity], the
    constructor of the entity class; both may raise. *)
Variable entity_instance_getter : unit -> result getter_value.
Variable admin_entity : unit -> result Z.

(** [set_entity_instance], the function [setEntity] posts to the model
    thread.  The result is the entity the new [self.entity_instance_getter]
    returns. *)
Definition set_entity_instance : result Z :=
  entity ← entity_instance_getter tt;
  match entity with
  | ValueLoading => Raise Exception_Wooha
  | Entity e => Ok e
  | NoEntity => admin_entity tt
  end.

End SetEntity.

End EmbeddedMany2OneEditor.

(** ** [camelot/view/wizard/import_data.py] *)

Module InputTableModel.

Record t := mk {
  arraydata : list (list string);
  headerdata : list string }.

(** [InputTableModel.__init__]: [list(datain)] reads all rows of the csv
    reader. *)
Definition __init__ (datain : list (list string)) (headerdata' : list string)
    : t :=
  mk datain headerdata'.

Definition IndexError : exn :=
  mkExn Interpreter "IndexError" "list index out of range".

(** [InputTableModel.rowCount] *)
Definition rowCount (self : t) : nat := length (arraydata self).

(** [InputTableModel.columnCount] *)
Definition columnCount (self : t) : result nat :=
  match arraydata self !! 0%nat with
  | Some row => Ok (length row)
  | None => Raise IndexError
  end.

(** A model index as the table model reads it. *)
Record QModelIndex := mkIndex {
  isValid : bool;
  row : Z;
  column : Z }.

Inductive orientation := Horizontal | Vertical.

(** [Qt.DisplayRole] *)
Definition DisplayRole : Z := 0.

(** [l[i]] for a Python list: a negative index counts from the end. *)
Definition getitem {A : Type} (l : list A) (i : Z) : result A :=
  let n := Z.of_nat (length l) in
  let i := (if i <? 0 then n + i else i)%Z in
  if ((0 <=? i) && (i <? n))%Z then
    match l !! Z.to_nat i with
    | Some x => Ok x
    | None => Raise IndexError
    end
  else Raise IndexError.

(** [InputTableModel.data]; [None] is the empty [QVariant()]. *)
Definition data (self : t) (index : QModelIndex) (role : Z)
    : result (option string) :=
  if negb (isValid index) then Ok None
  else if negb (role =? DisplayRole)%Z then Ok None
  else
    r ← getitem (arraydata self) (row index);
    cell ← getitem r (column index);
    Ok (Some cell).

(** [InputTableModel.headerData] *)
Definition headerData (self : t) (col : Z) (o : orientation) (role : Z)
    : result (option string) :=
  match o with
  | Horizontal =>
      if (role =? DisplayRole)%Z then
        name ← getitem (headerdata self) col;
        Ok (Some name)
      else Ok None
  | Vertical => Ok None
  end.

End InputTableModel.

(** ** [camelot/test/__init__.py] *)

Module CamelotTest.

(** The module state: the list [_application_], and the number of
    [QApplication] objects constructed so far, which names the next one. *)
Record state := mkState {
  _application_ : list nat;
  constructed : nat }.

(** [get_application] *)
Definition get_application (st : state) : result nat * state :=
  let st :=
    if (length (_application_ st) =? 0)%nat then
      mkState (_application_ st ++ [constructed st]) (S (constructed st))
    else st in
  match _application_ st !! 0%nat with
  | Some app => (Ok app, st)
  | None => (Raise InputTableModel.IndexError, st)
  end.

End CamelotTest.

(** * Properties *)

(** ** Status histories *)

Module StatusFacts.
Import TypeAndStatus.
Local Open Scope Z_scope.

Section Facts.

Context {status_type : Type}.
Variable end_of_times : date.

Local Abbreviation row := (@StatusHistory status_type).

Implicit Types h old : row.
Implicit Types rows : list row.

(** *** The filters, read as propositions *)

Lemma valid_at_in_range d h : valid_at d h = true <-> in_range d h.
Proof.
  unfold valid_at, in_range, sql_ge, sql_le.
  destruct (status_from_date h) as [f|], (status_thru_date h) as [t|];
    simpl; (split; [|intros (f' & t' & Ef & Et & Hf & Ht)]);
    try discriminate.
  - destruct (f <=? d) eqn:Hf, (d <=? t) eqn:Ht; simpl; try discriminate.
    intros _. exists f, t. repeat split; lia.
  - injection Ef as <-. injection Et as <-.
    apply Z.leb_le in Hf, Ht. now rewrite Hf, Ht.
  - now destruct (f <=? d).
  - now destruct (d <=? t).
Qed.

Lemma sql_where_and_key (k : bool) (p : option bool) :
  sql_where (sql_and (Some k) p) = k && sql_where p.
Proof. destruct k, p as [[|]|]; reflexivity. Qed.

Lemma old_status_filter_valid_at self d h :
  old_status_filter self d h = (status_for h =? self) && valid_at d h.
Proof. unfold old_status_filter, valid_at. apply sql_where_and_key. Qed.

Lemma old_status_filter_true self d h :
  old_status_filter self d h = true <-> status_for h = self /\ in_range d h.
Proof.
  rewrite old_status_filter_valid_at, andb_true_iff, Z.eqb_eq.
  now rewrite valid_at_in_range.
Qed.

(** *** The first row a query selects *)

Lemma find_first {A : Type} (p : A -> bool) (l : list A) :
  match List.find p l with
  | Some x => exists before after,
      l = before ++ x :: after /\ p x = true /\
      Forall (fun y => p y = false) before
  | None => Forall (fun y => p y = false) l
  end.
Proof.
  induction l as [|y l IH]; simpl.
  - constructor.
  - destruct (p y) eqn:Hy.
    + exists [], l. repeat split; auto.
    + destruct (List.find p l) as [x|].
      * destruct IH as (before & after & -> & Hx & Hb).
        exists (y :: before), after. repeat split; auto.
      * constructor; auto.
Qed.

(** *** Primary keys *)

Lemma next_id_above rows h : In h rows -> id h < next_id rows.
Proof.
  unfold next_id. induction rows as [|r rows IH]; simpl; [tauto|].
  intros [->|Hin]; [lia|]. specialize (IH Hin). lia.
Qed.

Lemma update_row_ids pk (g : StatusHistory -> StatusHistory) rows :
  (forall h, id (g h) = id h) ->
  map id (update_row pk g rows) = map id rows.
Proof.
  intros Hg. unfold update_row. rewrite map_map. apply map_ext.
  intros h. destruct (id h =? pk); auto.
Qed.

Lemma update_row_other pk (g : StatusHistory -> StatusHistory) rows :
  Forall (fun h => id h <> pk) rows -> update_row pk g rows = rows.
Proof.
  unfold update_row. induction 1 as [|h rows Hh _ IH]; simpl; [easy|].
  rewrite IH. apply Z.eqb_neq in Hh. now rewrite Hh.
Qed.

Lemma update_row_split (g : StatusHistory -> StatusHistory) before old after :
  primary_key (before ++ old :: after) ->
  update_row (id old) g (before ++ old :: after) = before ++ g old :: after.
Proof.
  unfold primary_key. rewrite map_app. simpl. intros Hnd.
  apply NoDup_remove in Hnd as [_ Hnotin].
  assert (Hb : Forall (fun h => id h <> id old) before).
  { apply List.Forall_forall. intros h Hin Heq. apply Hnotin, in_or_app. left.
    rewrite <- Heq. now apply in_map. }
  assert (Ha : Forall (fun h => id h <> id old) after).
  { apply List.Forall_forall. intros h Hin Heq. apply Hnotin, in_or_app. right.
    rewrite <- Heq. now apply in_map. }
  unfold update_row at 1. rewrite map_app. simpl. rewrite Z.eqb_refl.
  fold (update_row (id old) g before). fold (update_row (id old) g after).
  now rewrite !update_row_other.
Qed.

Lemma next_id_ext rows rows' :
  map id rows = map id rows' -> next_id rows = next_id rows'.
Proof. unfold next_id. now intros ->. Qed.

(** *** [change_status] *)

(** The two ways a call goes: a record of the entity is valid at the new
    start date, or none is. *)
Lemma change_status_cases (today : date) (self : Z)
    (new_status : status_type) (status_from_date' : option date)
    (status_thru_date' : kwarg (option date)) rows :
  primary_key rows ->
  let f := match status_from_date' with None => today | Some d => d end in
  let t := match status_thru_date' with
           | Omitted => Some end_of_times
           | Passed d => d
           end in
  let new :=
    mkStatusHistory (next_id rows) self new_status None (Some f) t
      today end_of_times in
  (exists before old after,
     rows = before ++ old :: after /\
     status_for old = self /\ in_range f old /\
     Forall (fun h => ~ (status_for h = self /\ in_range f h)) before /\
     change_status end_of_times today self new_status status_from_date'
       status_thru_date' rows
     = before
       ++ mkStatusHistory (id old) (status_for old) (classified_by old)
            (status_datetime old) (status_from_date old) (Some (f - 1))
            (from_date old) (today - 1)
       :: after ++ [new])
  \/ (Forall (fun h => ~ (status_for h = self /\ in_range f h)) rows /\
      change_status end_of_times today self new_status status_from_date'
        status_thru_date' rows
      = rows ++ [new]).
Proof.
  intros Hpk f t new. unfold change_status. fold f. fold t.
  pose proof (find_first (old_status_filter self f) rows) as Hfind.
  destruct (List.find (old_status_filter self f) rows) as [old|].
  - left. destruct Hfind as (before & after & -> & Hold & Hbefore).
    apply old_status_filter_true in Hold as [Hself Hrange].
    exists before, old, after. repeat split; auto.
    + eapply List.Forall_impl; [|exact Hbefore]. simpl. intros h Hh Hc.
      apply old_status_filter_true in Hc. congruence.
    + rewrite (next_id_ext _ (before ++ old :: after)).
      * rewrite update_row_split by assumption.
        unfold supersede. now rewrite <- app_assoc.
      * now apply update_row_ids.
  - right. split; [|reflexivity].
    eapply List.Forall_impl; [|exact Hfind]. simpl. intros h Hh Hc.
    apply old_status_filter_true in Hc. congruence.
Qed.

(** *** The call: when it returns, and what it raises *)

(** The call returns the table of [change_status], unless a record is to be
    superseded and today or the new start date has no day before it. *)
Lemma change_status_call (today : date) (self : Z)
    (new_status : status_type) (status_from_date' : option date)
    (status_thru_date' : kwarg (option date)) rows :
  let f := match status_from_date' with None => today | Some d => d end in
  StatusMixin.change_status end_of_times today self new_status
    status_from_date' status_thru_date' (Some rows)
  = match List.find (old_status_filter self f) rows with
    | Some _ =>
        if (date_min <? today) && (date_min <? f)
        then Ok (change_status end_of_times today self new_status
                   status_from_date' status_thru_date' rows)
        else Raise OverflowError_date
    | None =>
        Ok (change_status end_of_times today self new_status
              status_from_date' status_thru_date' rows)
    end.
Proof.
  intros f. unfold StatusMixin.change_status, change_status. fold f.
  destruct (List.find (old_status_filter self f) rows) as [old|];
    [|reflexivity].
  unfold minus_one_day.
  destruct (date_min <? today), (date_min <? f); reflexivity.
Qed.

Lemma change_status_call_returned (today : date) (self : Z)
    (new_status : status_type) (status_from_date' : option date)
    (status_thru_date' : kwarg (option date)) rows rows' :
  StatusMixin.change_status end_of_times today self new_status
    status_from_date' status_thru_date' (Some rows) = Ok rows' ->
  rows' = change_status end_of_times today self new_status
            status_from_date' status_thru_date' rows.
Proof.
  rewrite change_status_call.
  destruct (List.find _ rows);
    [destruct ((date_min <? today) && (date_min <? _))|];
    congruence.
Qed.

Lemma change_status_call_returns (today : date) (self : Z)
    (new_status : status_type) (status_from_date' : option date)
    (status_thru_date' : kwarg (option date)) rows :
  let f := match status_from_date' with None => today | Some d => d end in
  date_min < today -> date_min < f ->
  StatusMixin.change_status end_of_times today self new_status
    status_from_date' status_thru_date' (Some rows)
  = Ok (change_status end_of_times today self new_status
          status_from_date' status_thru_date' rows).
Proof.
  intros f Htoday Hf. rewrite change_status_call. fold f.
  apply Z.ltb_lt in Htoday, Hf. rewrite Htoday, Hf.
  now destruct (List.find _ rows).
Qed.

(** A sequence of calls that returns leaves the table of [run], and it
    does return when no call is made on [datetime.date.min] or starts its
    status there; likewise for [ChangeStatus.model_run]. *)
Lemma run_calls_returned (calls : list call) : forall rows rows',
  StatusMixin.run end_of_times calls rows = Ok rows' ->
  rows' = run end_of_times calls rows.
Proof.
  induction calls as [|c calls IH]; cbn [StatusMixin.run run fold_left];
    intros rows rows'.
  - congruence.
  - destruct (StatusMixin.change_status end_of_times (call_today c)
                (call_self c) (call_new_status c) (call_from_date c)
                (call_thru_date c) (Some rows)) as [rows1|e] eqn:Hcall;
      unfold mbind, result_bind; [|discriminate].
    apply change_status_call_returned in Hcall as ->. apply IH.
Qed.

Lemma run_calls_returns (calls : list call) : forall rows,
  Forall (fun c => date_min < call_today c /\
                   date_min < effective_from_date c) calls ->
  StatusMixin.run end_of_times calls rows = Ok (run end_of_times calls rows).
Proof.
  induction calls as [|c calls IH]; cbn [StatusMixin.run run fold_left];
    intros rows Hall; [reflexivity|].
  apply List.Forall_cons_iff in Hall as [[Htoday Hfrom] Hall].
  unfold effective_from_date in Hfrom.
  rewrite change_status_call_returns by assumption.
  unfold mbind, result_bind. now apply IH.
Qed.

Lemma model_run_returned (today : date) (new_status : status_type)
    (selection : list Z) : forall rows rows',
  ChangeStatus.model_run end_of_times today new_status selection rows
  = Ok rows' ->
  rows' = model_run end_of_times today new_status selection rows.
Proof.
  induction selection as [|obj selection IH];
    cbn [ChangeStatus.model_run model_run fold_left]; intros rows rows'.
  - congruence.
  - destruct (StatusMixin.change_status end_of_times today obj new_status
                None Omitted (Some rows)) as [rows1|e] eqn:Hcall;
      unfold mbind, result_bind; [|discriminate].
    apply change_status_call_returned in Hcall as ->. apply IH.
Qed.

Lemma model_run_returns (today : date) (new_status : status_type)
    (selection : list Z) : forall rows,
  date_min < today ->
  ChangeStatus.model_run end_of_times today new_status selection rows
  = Ok (model_run end_of_times today new_status selection rows).
Proof.
  induction selection as [|obj selection IH];
    cbn [ChangeStatus.model_run model_run fold_left]; intros rows Htoday;
    [reflexivity|].
  rewrite change_status_call_returns by assumption.
  unfold mbind, result_bind. now apply IH.
Qed.

(** The ways a call goes: a record of the entity is valid at the new start
    date, and it is superseded, or the call raises for want of a day before;
    or none is valid; or the entity has no session. *)
Lemma change_status_call_cases (today : date) (self : Z)
    (new_status : status_type) (status_from_date' : option date)
    (status_thru_date' : kwarg (option date)) rows :
  primary_key rows ->
  let f := match status_from_date' with None => today | Some d => d end in
  let t := match status_thru_date' with
           | Omitted => Some end_of_times
           | Passed d => d
           end in
  let new :=
    mkStatusHistory (next_id rows) self new_status None (Some f) t
      today end_of_times in
  ((exists before old after,
      rows = before ++ old :: after /\
      status_for old = self /\ in_range f old /\
      Forall (fun h => ~ (status_for h = self /\ in_range f h)) before /\
      StatusMixin.change_status end_of_times today self new_status
        status_from_date' status_thru_date' (Some rows)
      = if (date_min <? today) && (date_min <? f)
        then Ok (before
                 ++ mkStatusHistory (id old) (status_for old)
                      (classified_by old) (status_datetime old)
                      (status_from_date old) (Some (f - 1))
                      (from_date old) (today - 1)
                 :: after ++ [new])
        else Raise OverflowError_date)
   \/ (Forall (fun h => ~ (status_for h = self /\ in_range f h)) rows /\
       StatusMixin.change_status end_of_times today self new_status
         status_from_date' status_thru_date' (Some rows)
       = Ok (rows ++ [new])))
  /\ StatusMixin.change_status end_of_times today self new_status
       status_from_date' status_thru_date' None
     = Raise AttributeError_NoneType_query.
Proof.
  intros Hpk f t new. split; [|reflexivity].
  rewrite change_status_call. fold f. unfold change_status. fold f. fold t.
  pose proof (find_first (old_status_filter self f) rows) as Hfind.
  destruct (List.find (old_status_filter self f) rows) as [old|].
  - left. destruct Hfind as (before & after & -> & Hold & Hbefore).
    apply old_status_filter_true in Hold as [Hself Hrange].
    exists before, old, after. repeat split; auto.
    + eapply List.Forall_impl; [|exact Hbefore]. simpl. intros h Hh Hc.
      apply old_status_filter_true in Hc. congruence.
    + destruct ((date_min <? today) && (date_min <? f)); [|reflexivity].
      rewrite (next_id_ext _ (before ++ old :: after)).
      * rewrite update_row_split by assumption.
        unfold supersede. now rewrite <- app_assoc.
      * now apply update_row_ids.
  - right. split; [|reflexivity].
    eapply List.Forall_impl; [|exact Hfind]. simpl. intros h Hh Hc.
    apply old_status_filter_true in Hc. congruence.
Qed.

(** C1, amended.  [change_status] on an entity that has a session, with
    [f] the new [status_from_date] (today when none is given) and [t] the
    new [status_thru_date] ([end_of_times] when left out).  Either a record
    of the entity has [f] in its validity interval: then, when both today
    and [f] come after [datetime.date.min], the first such record of the
    table gets [status_thru_date = f - 1] and [thru_date = today - 1], all
    other rows stay as they are, and the new record is added; when today or
    [f] is [datetime.date.min] the call raises [OverflowError] instead.  Or
    no record of the entity has [f] in its interval, and the new record is
    added to the unchanged table.  The new record is classified by
    [new_status], valid from [f] through [t], with audit dates [today] and
    [end_of_times].  On an entity without a session the call raises
    [AttributeError]. *)
Theorem change_status_supersedes_after_date_min (today : date) (self : Z)
    (new_status : status_type) (status_from_date' : option date)
    (status_thru_date' : kwarg (option date)) rows :
  primary_key rows ->
  let f := match status_from_date' with None => today | Some d => d end in
  let t := match status_thru_date' with
           | Omitted => Some end_of_times
           | Passed d => d
           end in
  let new :=
    mkStatusHistory (next_id rows) self new_status None (Some f) t
      today end_of_times in
  ((exists before old after,
      rows = before ++ old :: after /\
      status_for old = self /\ in_range f old /\
      Forall (fun h => ~ (status_for h = self /\ in_range f h)) before /\
      StatusMixin.change_status end_of_times today self new_status
        status_from_date' status_thru_date' (Some rows)
      = if (date_min <? today) && (date_min <? f)
        then Ok (before
                 ++ mkStatusHistory (id old) (status_for old)
                      (classified_by old) (status_datetime old)
                      (status_from_date old) (Some (f - 1))
                      (from_date old) (today - 1)
                 :: after ++ [new])
        else Raise OverflowError_date)
   \/ (Forall (fun h => ~ (status_for h = self /\ in_range f h)) rows /\
       StatusMixin.change_status end_of_times today self new_status
         status_from_date' status_thru_date' (Some rows)
       = Ok (rows ++ [new])))
  /\ StatusMixin.change_status end_of_times today self new_status
       status_from_date' status_thru_date' None
     = Raise AttributeError_NoneType_query.
Proof. exact (change_status_call_cases today self new_status
               status_from_date' status_thru_date' rows). Qed.

(** *** [get_status_history_at] *)

Lemma get_status_history_loop_valid d (status' : list StatusHistory) :
  Forall (fun h => status_from_date h <> None /\ status_thru_date h <> None)
    status' ->
  exists r, get_status_history_loop d status' = Ok r /\
    match r with
    | Some h => In h status' /\ in_range d h
    | None => Forall (fun h => ~ in_range d h) status'
    end.
Proof.
  induction 1 as [|h l [Hf Ht] _ (r & Hr & Hspec)]; simpl.
  - exists None. split; [reflexivity|constructor].
  - assert (Hnext : exists r', get_status_history_loop d l = Ok r' /\
        (~ in_range d h ->
         match r' with
         | Some h' => In h' (h :: l) /\ in_range d h'
         | None => Forall (fun h' => ~ in_range d h') (h :: l)
         end)).
    { exists r. split; [exact Hr|]. intros Hn. destruct r as [h'|].
      - destruct Hspec. split; [now right|assumption].
      - now constructor. }
    destruct (status_from_date h) as [f|] eqn:Ef; [|congruence].
    destruct (status_thru_date h) as [t|] eqn:Et; [|congruence].
    unfold py_ge; simpl. destruct (f <=? d) eqn:Hfd; simpl.
    + destruct (d <=? t) eqn:Hdt; simpl.
      * exists (Some h). split; [reflexivity|]. split; [now left|].
        exists f, t. apply Z.leb_le in Hfd, Hdt. auto.
      * destruct Hnext as (r' & Hr' & Hn). exists r'. split; [exact Hr'|].
        apply Hn. intros (f' & t' & Ef' & Et' & Hle).
        rewrite Ef' in Ef. rewrite Et' in Et.
        injection Ef as ->. injection Et as ->.
        apply Z.leb_gt in Hdt. lia.
    + destruct Hnext as (r' & Hr' & Hn). exists r'. split; [exact Hr'|].
      apply Hn. intros (f' & t' & Ef' & Et' & Hle).
      rewrite Ef' in Ef. injection Ef as ->.
      apply Z.leb_gt in Hfd. lia.
Qed.

(** C3. When every record of the status collection has both status dates,
    [get_status_history_at] returns without raising: a record of the
    collection whose validity interval contains the date, or [None] when no
    record's interval contains it.  The date is today when [None] is
    given. *)
Theorem get_status_history_at_valid (today : date)
    (status' : list StatusHistory) (status_date : option date) :
  Forall (fun h => status_from_date h <> None /\ status_thru_date h <> None)
    status' ->
  let d := match status_date with None => today | Some d => d end in
  exists r, get_status_history_at today status' status_date = Ok r /\
    match r with
    | Some h => In h status' /\ in_range d h
    | None => Forall (fun h => ~ in_range d h) status'
    end.
Proof.
  intros Hall d. unfold get_status_history_at. fold d.
  now apply get_status_history_loop_valid.
Qed.

(** *** Counting the records valid at a date *)

Lemma count_app (p : row -> bool) (l1 l2 : list row) :
  length (List.filter p (l1 ++ l2))
  = (length (List.filter p l1) + length (List.filter p l2))%nat.
Proof. now rewrite List.filter_app, length_app. Qed.

Lemma count_cons (p : row -> bool) h (l : list row) :
  length (List.filter p (h :: l))
  = ((if p h then 1 else 0) + length (List.filter p l))%nat.
Proof. simpl. now destruct (p h). Qed.

Lemma count_zero (p : row -> bool) (l : list row) :
  length (List.filter p l) = 0%nat <-> Forall (fun h => p h = false) l.
Proof.
  induction l as [|h l IH]; simpl.
  - split; [constructor|reflexivity].
  - destruct (p h) eqn:Hp; simpl; split.
    + discriminate.
    + intros Hall. apply List.Forall_inv in Hall. congruence.
    + intros Hl. constructor; [assumption|now apply IH].
    + intros Hall. apply IH. now apply List.Forall_inv_tail in Hall.
Qed.

(** Pairwise disjoint validity intervals, and at most one valid record at
    each date, are the same thing. *)
Lemma non_overlapping_count (l : list row) :
  non_overlapping l <->
  forall d, (length (List.filter (valid_at d) l) <= 1)%nat.
Proof.
  unfold non_overlapping. induction l as [|a l IH].
  - split; [simpl; lia|constructor].
  - split.
    + intros Hl d. inversion Hl as [|a' l' Ha Hrest]; subst.
      rewrite count_cons. destruct (valid_at d a) eqn:Hva.
      * assert (Hz : length (List.filter (valid_at d) l) = 0%nat).
        { apply count_zero. eapply List.Forall_impl; [|exact Ha]. simpl.
          intros b Hb. destruct (valid_at d b) eqn:Hvb; [|reflexivity].
          exfalso. apply (Hb d). split; now apply valid_at_in_range. }
        lia.
      * pose proof (proj1 IH Hrest d). lia.
    + intros Hcount. constructor.
      * apply List.Forall_forall. intros b Hb d [Hda Hdb].
        apply valid_at_in_range in Hda, Hdb.
        specialize (Hcount d). rewrite count_cons, Hda in Hcount.
        assert (Hz : length (List.filter (valid_at d) l) = 0%nat) by lia.
        apply count_zero in Hz. rewrite List.Forall_forall in Hz.
        specialize (Hz b Hb). congruence.
      * apply (proj2 IH). intros d. specialize (Hcount d).
        rewrite count_cons in Hcount. lia.
Qed.

(** *** One call, seen from one entity *)

Lemma status_app self (l1 l2 : list row) :
  status self (l1 ++ l2) = status self l1 ++ status self l2.
Proof. apply List.filter_app. Qed.

Lemma status_cons_same self h (l : list row) :
  status_for h = self -> status self (h :: l) = h :: status self l.
Proof. intros <-. unfold status. simpl. now rewrite Z.eqb_refl. Qed.

Lemma status_cons_other self h (l : list row) :
  status_for h <> self -> status self (h :: l) = status self l.
Proof.
  intros Hne. unfold status. simpl. apply Z.eqb_neq in Hne. now rewrite Hne.
Qed.

Lemma primary_key_snoc rows h :
  primary_key rows -> id h = next_id rows -> primary_key (rows ++ [h]).
Proof.
  unfold primary_key. intros Hpk Hid. rewrite map_app. simpl.
  apply List.NoDup_app; repeat split.
  - exact Hpk.
  - repeat constructor. simpl. tauto.
  - intros x Hx [Hx'|[]]. subst x. apply in_map_iff in Hx as (r & Hr & Hin).
    apply next_id_above in Hin. lia.
Qed.

Lemma change_status_primary_key (today : date) (self : Z)
    (new_status : status_type) (status_from_date' : option date)
    (status_thru_date' : kwarg (option date)) rows :
  primary_key rows ->
  primary_key (change_status end_of_times today self new_status
                 status_from_date' status_thru_date' rows).
Proof.
  intros Hpk. unfold change_status.
  destruct (List.find _ rows) as [old|];
    apply primary_key_snoc; try reflexivity; try assumption.
  unfold primary_key. now rewrite update_row_ids.
Qed.

Lemma not_valid_later h (f d : date) :
  (forall fh, status_from_date h = Some fh -> fh <= f) ->
  valid_at f h = false -> f <= d -> valid_at d h = false.
Proof.
  intros Hfrom Hf Hd. destruct (valid_at d h) eqn:Hv; [|reflexivity].
  apply valid_at_in_range in Hv as (fh & th & Efh & Eth & Hle).
  assert (Hin : in_range f h).
  { exists fh, th. specialize (Hfrom fh Efh). repeat split; auto; lia. }
  apply valid_at_in_range in Hin. congruence.
Qed.

Lemma supersede_in_range (today f d : date) old :
  in_range f old -> in_range d (supersede today f old) ->
  in_range d old /\ d < f.
Proof.
  intros (fo & to & Efo & Eto & Hfo) (f' & t' & Ef' & Et' & Hd).
  simpl in Ef', Et'. injection Et' as Et'. split; [|lia].
  exists fo, to. rewrite Efo in Ef'. injection Ef' as Ef'.
  repeat split; auto; lia.
Qed.

(** Adding a record that starts at [f] to records that start no later and
    are not valid at [f]. *)
Lemma count_snoc (l : list row) new (f : date) :
  (forall d, (length (List.filter (valid_at d) l) <= 1)%nat) ->
  Forall (fun h => valid_at f h = false) l ->
  Forall (fun h => forall fh, status_from_date h = Some fh -> fh <= f) l ->
  status_from_date new = Some f ->
  forall d, (length (List.filter (valid_at d) (l ++ [new])) <= 1)%nat.
Proof.
  intros Hcount Hnot Hfrom Hnew d. rewrite count_app, count_cons. simpl.
  destruct (valid_at d new) eqn:Hv; [|specialize (Hcount d); lia].
  apply valid_at_in_range in Hv as (fn & tn & Efn & _ & Hle).
  rewrite Hnew in Efn. injection Efn as Efn.
  assert (Hz : length (List.filter (valid_at d) l) = 0%nat); [|lia].
  apply count_zero. apply List.Forall_forall. intros h Hin.
  rewrite List.Forall_forall in Hnot, Hfrom.
  apply (not_valid_later h f d); [now apply Hfrom|now apply Hnot|lia].
Qed.

Lemma status_not_valid self (f : date) (l : list row) :
  Forall (fun h => ~ (status_for h = self /\ in_range f h)) l ->
  Forall (fun h => valid_at f h = false) (status self l).
Proof.
  intros Hall. apply List.Forall_forall. intros h Hin.
  unfold status in Hin. apply List.filter_In in Hin as [Hin Hself].
  apply Z.eqb_eq in Hself. rewrite List.Forall_forall in Hall.
  destruct (valid_at f h) eqn:Hv; [|reflexivity].
  apply valid_at_in_range in Hv. exfalso. now apply (Hall h Hin).
Qed.

(** A call on an entity keeps its history free of overlaps, when no record
    of the history starts after the new one. *)
Lemma change_status_same_entity (today : date) (self : Z)
    (new_status : status_type) (status_from_date' : option date)
    (status_thru_date' : kwarg (option date)) rows :
  let f := match status_from_date' with None => today | Some d => d end in
  let rows' := change_status end_of_times today self new_status
                 status_from_date' status_thru_date' rows in
  primary_key rows ->
  (forall d, (length (List.filter (valid_at d) (status self rows)) <= 1)%nat) ->
  Forall (fun h => forall fh, status_from_date h = Some fh -> fh <= f)
    (status self rows) ->
  (forall d, (length (List.filter (valid_at d) (status self rows')) <= 1)%nat)
  /\ Forall (fun h => forall fh, status_from_date h = Some fh -> fh <= f)
       (status self rows').
Proof.
  intros f rows' Hpk Hcount Hfrom. subst rows'.
  destruct (change_status_cases today self new_status status_from_date'
              status_thru_date' rows Hpk)
    as [(before & old & after & -> & Hself & Hrange & Hbefore & ->)
       |[Hnone ->]]; fold f in Hrange, Hbefore || fold f in Hnone; fold f.
  - set (old' := mkStatusHistory (id old) _ _ _ _ _ _ _).
    set (new := mkStatusHistory (next_id _) _ _ _ _ _ _ _).
    rewrite status_app, status_cons_same in Hcount, Hfrom by assumption.
    replace (before ++ old' :: after ++ [new])
      with ((before ++ old' :: after) ++ [new])
      by (now rewrite <- app_assoc).
    rewrite (status_app self (before ++ old' :: after)).
    rewrite (status_cons_same self new) by reflexivity. simpl.
    rewrite status_app, (status_cons_same self old') by assumption.
    apply List.Forall_app in Hfrom as [Hfb Hfa].
    apply List.Forall_cons_iff in Hfa as [Hfo Hfa].
    assert (Hold' : forall d, in_range d old' -> in_range d old /\ d < f).
    { intros d. apply (supersede_in_range today f d old Hrange). }
    assert (Hvold : valid_at f old = true) by now apply valid_at_in_range.
    assert (Hafter : Forall (fun h => valid_at f h = false)
                       (status self after)).
    { apply count_zero. specialize (Hcount f).
      rewrite count_app, count_cons, Hvold in Hcount. lia. }
    assert (Hshrink : forall d,
      ((if valid_at d old' then 1 else 0) <=
       (if valid_at d old then 1 else 0))%nat).
    { intros d. destruct (valid_at d old') eqn:Hv; [|lia].
      apply valid_at_in_range, Hold' in Hv as [Hv _].
      apply valid_at_in_range in Hv. rewrite Hv. lia. }
    split.
    + apply (count_snoc _ new f).
      * intros d. specialize (Hcount d). specialize (Hshrink d).
        rewrite count_app, count_cons in Hcount |- *. lia.
      * apply List.Forall_app. split; [now apply status_not_valid|].
        constructor; [|exact Hafter].
        destruct (valid_at f old') eqn:Hv; [|reflexivity].
        apply valid_at_in_range, Hold' in Hv. lia.
      * apply List.Forall_app. split; [exact Hfb|].
        constructor; [exact Hfo|exact Hfa].
      * reflexivity.
    + apply List.Forall_app. split.
      * apply List.Forall_app. split; [exact Hfb|].
        constructor; [exact Hfo|exact Hfa].
      * constructor; [|constructor]. simpl. intros fh [= <-]. lia.
  - set (new := mkStatusHistory (next_id _) _ _ _ _ _ _ _).
    rewrite status_app, (status_cons_same self new) by reflexivity. simpl.
    split.
    + apply (count_snoc _ new f); auto. now apply status_not_valid.
    + apply List.Forall_app. split; [exact Hfrom|].
      constructor; [|constructor]. simpl. intros fh [= <-]. lia.
Qed.

(** A call on another entity leaves the history alone. *)
Lemma change_status_other_entity (today : date) (self other : Z)
    (new_status : status_type) (status_from_date' : option date)
    (status_thru_date' : kwarg (option date)) rows :
  primary_key rows -> other <> self ->
  status self (change_status end_of_times today other new_status
                 status_from_date' status_thru_date' rows)
  = status self rows.
Proof.
  intros Hpk Hne.
  assert (E : (other =? self) = false) by now apply Z.eqb_neq.
  destruct (change_status_cases today other new_status status_from_date'
              status_thru_date' rows Hpk)
    as [(before & old & after & -> & Hself & _ & _ & ->)|[_ ->]].
  - unfold status. rewrite !List.filter_app. simpl.
    rewrite !List.filter_app. simpl. rewrite Hself, E. simpl.
    now rewrite app_nil_r.
  - unfold status. rewrite List.filter_app. simpl. rewrite E.
    now rewrite app_nil_r.
Qed.

(** *** Sequences of calls *)

Lemma run_count self (calls : list (@call status_type)) : forall rows,
  primary_key rows ->
  (forall d, (length (List.filter (valid_at d) (status self rows)) <= 1)%nat) ->
  Forall (fun h => forall fh, status_from_date h = Some fh ->
            Forall (fun x => fh <= x)
              (map effective_from_date
                 (List.filter (fun c => call_self c =? self) calls)))
    (status self rows) ->
  StronglySorted Z.le
    (map effective_from_date
       (List.filter (fun c => call_self c =? self) calls)) ->
  forall d, (length (List.filter (valid_at d)
                       (status self (run end_of_times calls rows))) <= 1)%nat.
Proof.
  induction calls as [|c calls IH]; intros rows Hpk Hcount Hfrom Hsorted;
    [exact Hcount|].
  simpl in Hfrom, Hsorted |- *.
  assert (Hpk' : primary_key (apply_call end_of_times rows c))
    by now apply change_status_primary_key.
  destruct (call_self c =? self) eqn:Hself; simpl in Hfrom, Hsorted.
  - apply Z.eqb_eq in Hself.
    apply StronglySorted_inv in Hsorted as [Hsorted Hlater].
    destruct (change_status_same_entity (call_today c) self
                (call_new_status c) (call_from_date c) (call_thru_date c)
                rows Hpk Hcount) as [Hcount' Hfrom'].
    { eapply List.Forall_impl; [|exact Hfrom]. simpl. intros h Hh fh Efh.
      specialize (Hh fh Efh). now apply List.Forall_inv in Hh. }
    apply IH; auto; unfold apply_call; rewrite Hself; auto.
    eapply List.Forall_impl; [|exact Hfrom']. simpl. intros h Hh fh Efh.
    specialize (Hh fh Efh).
    eapply List.Forall_impl; [|exact Hlater]. simpl.
    unfold effective_from_date at 1. intros x Hx. lia.
  - apply Z.eqb_neq in Hself.
    apply IH; auto; unfold apply_call;
      rewrite change_status_other_entity by assumption; auto.
Qed.

(** C2, amended.  Start from the empty status table and make any sequence
    of [change_status] calls, on any entities.  For an entity whose calls
    come in the order of their start dates (none starts its status before
    an earlier call did), the validity intervals of the entity's records are
    pairwise disjoint, and at every date at most one record is valid. *)
Theorem chronological_change_status_non_overlapping (self : Z)
    (calls : list (@call status_type)) :
  chronological self calls ->
  let history := status self (run end_of_times calls []) in
  non_overlapping history /\
  forall d, (length (List.filter (valid_at d) history) <= 1)%nat.
Proof.
  intros Hchrono history.
  assert (Hcount : forall d,
            (length (List.filter (valid_at d) history) <= 1)%nat).
  { apply run_count.
    - constructor.
    - intros d. simpl. lia.
    - constructor.
    - apply Sorted_StronglySorted; [|exact Hchrono].
      intros x y z. apply Z.le_trans. }
  split; [now apply non_overlapping_count|exact Hcount].
Qed.

(** *** [current_status] and [current_status_query] *)

Lemma current_status_filter_valid_at today self h :
  current_status_filter today self h = (status_for h =? self) && valid_at today h.
Proof. unfold current_status_filter, valid_at. apply sql_where_and_key. Qed.

Lemma current_status_filter_status today self rows :
  List.filter (current_status_filter today self) rows
  = List.filter (valid_at today) (status self rows).
Proof.
  unfold status. induction rows as [|h rows IH]; simpl; [reflexivity|].
  rewrite current_status_filter_valid_at.
  destruct (status_for h =? self); simpl; [|exact IH].
  destruct (valid_at today h); now rewrite IH.
Qed.

(** Without NULL dates the Python loop returns the first valid record. *)
Lemma get_status_history_loop_first d (status' : list row) :
  Forall (fun h => status_from_date h <> None /\ status_thru_date h <> None)
    status' ->
  get_status_history_loop d status'
  = Ok (List.find (valid_at d) status').
Proof.
  induction 1 as [|h l [Hf Ht] _ IH]; simpl; [reflexivity|].
  unfold valid_at, py_ge, sql_ge.
  destruct (status_from_date h) as [f|]; [|congruence].
  destruct (status_thru_date h) as [t|]; [|congruence].
  simpl. destruct (f <=? d); simpl; [|exact IH].
  destruct (d <=? t); simpl; [reflexivity|exact IH].
Qed.

(** The two sides of the hybrid property agree on histories without NULL
    dates in which at most one record is valid today. *)
Lemma current_status_agree today self rows :
  Forall (fun h => status_from_date h <> None /\ status_thru_date h <> None)
    (status self rows) ->
  (length (List.filter (valid_at today) (status self rows)) <= 1)%nat ->
  current_status today (status self rows)
  = Ok (current_status_query today self rows).
Proof.
  intros Hall Hone. unfold current_status, current_status_query.
  unfold get_status_history_at.
  rewrite get_status_history_loop_first, current_status_filter_status
    by assumption.
  induction (status self rows) as [|h l IH]; simpl in *; [reflexivity|].
  destruct (valid_at today h); simpl in *.
  - destruct (List.filter (valid_at today) l); simpl in *; [reflexivity|lia].
  - apply IH; [now apply List.Forall_inv_tail in Hall|assumption].
Qed.

End Facts.

(** *** The properties at work on the history of one entity

    Entity 7 is a draft since 1 March 2012 (day 734563); [end_of_times] is
    31 December 2400 (day 876582). *)

(** C1, as stated, fails: entity 7 is a draft since [datetime.date.min].
    A change of status that starts on that very day finds the draft, whose
    interval contains the day, and raises [OverflowError] for the day before
    it: the draft keeps its [status_thru_date] and no record is created. *)
Lemma change_status_raises_at_date_min :
  let draft :=
    mkStatusHistory 1 7 "draft" None (Some date_min) (Some 876582)
      734563 876582 in
  (status_for draft = 7 /\ in_range date_min draft) /\
  StatusMixin.change_status 876582 734572 7 "ready" (Some date_min) Omitted
    (Some [draft])
  = Raise OverflowError_date.
Proof.
  split; [|reflexivity].
  split; [reflexivity|]. exists date_min, 876582. unfold date_min. simpl.
  repeat split; lia.
Qed.

(** The draft is closed on the eve of 10 March 2012 (day 734572), the day
    the entity is made ready. *)
Lemma change_status_supersedes_after_date_min_witness :
  let rows :=
    [mkStatusHistory 1 7 "draft" None (Some 734563) (Some 876582)
       734563 876582] in
  let new :=
    mkStatusHistory (next_id rows) 7 "ready" None (Some 734572)
      (Some 876582) 734572 876582 in
  primary_key rows /\
  ((exists before old after,
      rows = before ++ old :: after /\
      status_for old = 7 /\ in_range 734572 old /\
      Forall (fun h => ~ (status_for h = 7 /\ in_range 734572 h)) before /\
      StatusMixin.change_status 876582 734572 7 "ready" None Omitted
        (Some rows)
      = if (date_min <? 734572) && (date_min <? 734572)
        then Ok (before
                 ++ mkStatusHistory (id old) (status_for old)
                      (classified_by old) (status_datetime old)
                      (status_from_date old) (Some (734572 - 1))
                      (from_date old) (734572 - 1)
                 :: after ++ [new])
        else Raise OverflowError_date)
   \/ (Forall (fun h => ~ (status_for h = 7 /\ in_range 734572 h)) rows /\
       StatusMixin.change_status 876582 734572 7 "ready" None Omitted
         (Some rows)
       = Ok (rows ++ [new])))
  /\ StatusMixin.change_status 876582 734572 7 "ready" None Omitted None
     = Raise AttributeError_NoneType_query.
Proof.
  intros rows new.
  assert (Hpk : primary_key rows).
  { unfold primary_key. simpl. constructor; [simpl; tauto|constructor]. }
  split; [exact Hpk|].
  exact (change_status_supersedes_after_date_min 876582 734572 7 "ready"
           None Omitted rows Hpk).
Defined.

(** The table that call leaves: the draft closed, the new record after it. *)
Example change_status_on_a_draft :
  StatusMixin.change_status 876582 734572 7 "ready" None Omitted
    (Some [mkStatusHistory 1 7 "draft" None (Some 734563) (Some 876582)
             734563 876582])
  = Ok [mkStatusHistory 1 7 "draft" None (Some 734563) (Some 734571)
          734563 734571;
        mkStatusHistory 2 7 "ready" None (Some 734572) (Some 876582)
          734572 876582].
Proof. reflexivity. Qed.

(** C2, as stated, fails: a status made to start before the record already
    there leaves that record alone, and the two overlap. *)
Lemma back_dated_change_status_overlaps :
  ~ non_overlapping
      (status 7
         (run 876582
            [mkCall 734572 7 "draft" (Some 734572) Omitted;
             mkCall 734572 7 "ready" (Some 734563) Omitted] [])).
Proof.
  intros Hno.
  pose proof (proj1 (non_overlapping_count _) Hno 734580) as Htwo.
  vm_compute in Htwo. lia.
Qed.

(** Two calls in the order of their dates, each starting today. *)
Lemma chronological_change_status_non_overlapping_witness :
  let calls :=
    [mkCall 734563 7 "draft" None Omitted;
     mkCall 734572 7 "ready" None Omitted] in
  chronological 7 calls /\
  (non_overlapping (status 7 (run 876582 calls [])) /\
   forall d,
     (length (List.filter (valid_at d) (status 7 (run 876582 calls [])))
      <= 1)%nat).
Proof.
  intros calls.
  assert (Hchrono : chronological 7 calls).
  { unfold chronological. simpl.
    constructor; [repeat constructor|constructor].
    unfold effective_from_date. simpl. lia. }
  split; [exact Hchrono|].
  exact (chronological_change_status_non_overlapping 876582 7 calls Hchrono).
Defined.

(** A history without NULL dates, asked for 8 March 2012. *)
Lemma get_status_history_at_valid_witness :
  let status' :=
    [mkStatusHistory 1 7 "draft" None (Some 734563) (Some 734571)
       734563 734571;
     mkStatusHistory 2 7 "ready" None (Some 734572) (Some 876582)
       734572 876582] in
  Forall (fun h => status_from_date h <> None /\ status_thru_date h <> None)
    status' /\
  exists r, get_status_history_at 734580 status' (Some 734570) = Ok r /\
    match r with
    | Some h => In h status' /\ in_range 734570 h
    | None => Forall (fun h => ~ in_range 734570 h) status'
    end.
Proof.
  intros status'.
  assert (Hall : Forall (fun h => status_from_date h <> None /\
                                  status_thru_date h <> None) status').
  { repeat constructor; discriminate. }
  split; [exact Hall|].
  exact (get_status_history_at_valid 734580 status' (Some 734570) Hall).
Defined.

(** C4.  On a history with two records valid today the two sides of the
    hybrid property disagree: [current_status] takes the first valid record
    of the collection, [current_status_query] the valid row with the
    greatest [id].  Such a history comes out of two [change_status] calls,
    the second one back dated. *)
Theorem current_status_differs_from_query :
  let rows :=
    run 876582
      [mkCall 734572 7 "draft" (Some 734572) Omitted;
       mkCall 734572 7 "ready" (Some 734563) Omitted] [] in
  current_status 734580 (status 7 rows) = Ok (Some "draft") /\
  current_status_query 734580 7 rows = Some "ready".
Proof. vm_compute. split; reflexivity. Qed.

End StatusFacts.

(** ** Parties and addresses *)

Module PartyFacts.
Import Party.
Local Open Scope Z_scope.

(** *** [get_or_create] *)

Section FirstMatch.

Context {A : Type}.
Variable p : A -> bool.

Lemma find_app_found (l later : list A) x :
  List.find p l = Some x -> List.find p (l ++ later) = Some x.
Proof.
  induction l as [|y l IH]; simpl; [discriminate|].
  destruct (p y); auto.
Qed.

Lemma find_app_created (l later : list A) x :
  List.find p l = None -> p x = true ->
  List.find p ((l ++ [x]) ++ later) = Some x.
Proof.
  intros Hnone Hx. apply find_app_found.
  induction l as [|y l IH]; simpl in *; [now rewrite Hx|].
  destruct (p y); [discriminate|auto].
Qed.

Lemma find_none_iff (l : list A) :
  List.find p l = None <-> Forall (fun y => p y = false) l.
Proof.
  induction l as [|y l IH]; simpl.
  - split; [constructor|reflexivity].
  - destruct (p y) eqn:Hy; split.
    + discriminate.
    + intros Hall. apply List.Forall_inv in Hall. congruence.
    + intros Hl. constructor; [assumption|now apply IH].
    + intros Hall. apply IH. now apply List.Forall_inv_tail in Hall.
Qed.

Lemma find_some_in (l : list A) x :
  List.find p l = Some x -> In x l /\ p x = true.
Proof. apply List.find_some. Qed.

End FirstMatch.

Lemma Country_filter_by_true code' g :
  Country.filter_by code' g = true <->
  GeographicBoundary.row_type g = GeographicBoundary.country /\
  GeographicBoundary.code g = code'.
Proof.
  unfold Country.filter_by.
  destruct (GeographicBoundary.row_type g).
  - rewrite bool_decide_eq_true. tauto.
  - split; [discriminate|]. now intros [? _].
Qed.

(** The primary key of a new row is that of no row of the table. *)
Lemma next_id_fresh {A : Type} (id : A -> Z) (rows : list A) :
  Forall (fun r => id r <> next_id id rows) rows.
Proof.
  apply List.Forall_forall. intros r Hin.
  assert (Hlt : id r < next_id id rows); [|lia].
  unfold next_id. induction rows as [|r0 rows IH]; simpl; [destruct Hin|].
  destruct Hin as [->|Hin]; [lia|]. specialize (IH Hin). lia.
Qed.

Lemma Address_filter_by_true street1' street2' city' a :
  Address.filter_by street1' street2' city' a = true <->
  Address.street1 a = street1' /\ Address.street2 a = street2' /\
  Address.city a = city'.
Proof.
  unfold Address.filter_by.
  rewrite !andb_true_iff, !bool_decide_eq_true. tauto.
Qed.

Lemma Country_get_or_create_spec (code : option string) (name : string)
    (rows : list GeographicBoundary.t) :
  let country := fst (Country.get_or_create code name rows) in
  let rows1 := snd (Country.get_or_create code name rows) in
  In country rows1 /\
  (GeographicBoundary.row_type country = GeographicBoundary.country /\
   GeographicBoundary.code country = code) /\
  (Forall (fun g => ~ (GeographicBoundary.row_type g
                       = GeographicBoundary.country /\
                       GeographicBoundary.code g = code)) rows ->
   country = GeographicBoundary.mk (next_id GeographicBoundary.id rows) code
               name GeographicBoundary.country /\
   Forall (fun g => GeographicBoundary.id g <> GeographicBoundary.id country)
     rows /\
   rows1 = rows ++ [country]) /\
  (Exists (fun g => GeographicBoundary.row_type g
                    = GeographicBoundary.country /\
                    GeographicBoundary.code g = code) rows ->
   In country rows /\ rows1 = rows) /\
  (forall name' later,
     Country.get_or_create code name' (rows1 ++ later)
     = (country, rows1 ++ later)).
Proof.
  unfold Country.get_or_create at 1 2.
  destruct (List.find (Country.filter_by code) rows) as [c|] eqn:Efind; simpl.
  - pose proof (find_some_in _ _ _ Efind) as [Hin Hc].
    apply Country_filter_by_true in Hc.
    split; [exact Hin|]. split; [exact Hc|]. split; [|split].
    + intros Hall. rewrite List.Forall_forall in Hall.
      now destruct (Hall c Hin).
    + auto.
    + intros name' later. unfold Country.get_or_create.
      now rewrite (find_app_found _ _ later _ Efind).
  - split; [apply in_or_app; right; now left|].
    split; [now split|]. split; [|split].
    + intros _. split; [reflexivity|]. split; [|reflexivity].
      apply next_id_fresh.
    + intros Hex. apply find_none_iff in Efind.
      apply List.Exists_exists in Hex as (c & Hin & Hc).
      rewrite List.Forall_forall in Efind. specialize (Efind c Hin).
      apply Country_filter_by_true in Hc. congruence.
    + intros name' later. unfold Country.get_or_create.
      rewrite (find_app_created _ _ later _ Efind); [reflexivity|].
      now apply Country_filter_by_true.
Qed.

Lemma Address_get_or_create_spec (street1 : string) (street2 : option string)
    (city : Z) (rows : list Address.t) :
  let address := fst (Address.get_or_create street1 street2 city rows) in
  let rows1 := snd (Address.get_or_create street1 street2 city rows) in
  In address rows1 /\
  (Address.street1 address = street1 /\ Address.street2 address = street2 /\
   Address.city address = city) /\
  (Forall (fun a => ~ (Address.street1 a = street1 /\
                       Address.street2 a = street2 /\
                       Address.city a = city)) rows ->
   address = Address.mk (next_id Address.id rows) street1 street2 city /\
   rows1 = rows ++ [address]) /\
  (Exists (fun a => Address.street1 a = street1 /\
                    Address.street2 a = street2 /\
                    Address.city a = city) rows ->
   In address rows /\ rows1 = rows) /\
  (forall later,
     Address.get_or_create street1 street2 city (rows1 ++ later)
     = (address, rows1 ++ later)).
Proof.
  unfold Address.get_or_create at 1 2.
  destruct (List.find (Address.filter_by street1 street2 city) rows)
    as [a|] eqn:Efind; simpl.
  - pose proof (find_some_in _ _ _ Efind) as [Hin Ha].
    apply Address_filter_by_true in Ha.
    split; [exact Hin|]. split; [exact Ha|]. split; [|split].
    + intros Hall. rewrite List.Forall_forall in Hall.
      now destruct (Hall a Hin).
    + auto.
    + intros later. unfold Address.get_or_create.
      now rewrite (find_app_found _ _ later _ Efind).
  - split; [apply in_or_app; right; now left|].
    split; [auto|]. split; [auto|]. split.
    + intros Hex. apply find_none_iff in Efind.
      apply List.Exists_exists in Hex as (a & Hin & Ha).
      rewrite List.Forall_forall in Efind. specialize (Efind a Hin).
      apply Address_filter_by_true in Ha. congruence.
    + intros later. unfold Address.get_or_create.
      rewrite (find_app_created _ _ later _ Efind); [reflexivity|].
      now apply Address_filter_by_true.
Qed.

(** C8. [Country.get_or_create] and [Address.get_or_create] return a record
    of the table with the key asked for.  When no record has the key, the
    record is new, made of the arguments, with a primary key no row of the
    table has, and added to the table; when one has, the table is left as
    it is.  Every later call with the same key, whatever was added to the
    table in between (for a country: countries or cities) and, for a
    country, whatever the name given, returns that same record and leaves
    the table as it is: nothing is modified and no second record is made. *)
Theorem get_or_create_idempotent :
  (forall (code : option string) (name : string)
          (rows : list GeographicBoundary.t),
     let country := fst (Country.get_or_create code name rows) in
     let rows1 := snd (Country.get_or_create code name rows) in
     In country rows1 /\
     (GeographicBoundary.row_type country = GeographicBoundary.country /\
      GeographicBoundary.code country = code) /\
     (Forall (fun g => ~ (GeographicBoundary.row_type g
                          = GeographicBoundary.country /\
                          GeographicBoundary.code g = code)) rows ->
      country = GeographicBoundary.mk (next_id GeographicBoundary.id rows)
                  code name GeographicBoundary.country /\
      Forall (fun g => GeographicBoundary.id g
                       <> GeographicBoundary.id country) rows /\
      rows1 = rows ++ [country]) /\
     (Exists (fun g => GeographicBoundary.row_type g
                       = GeographicBoundary.country /\
                       GeographicBoundary.code g = code) rows ->
      In country rows /\ rows1 = rows) /\
     (forall name' later,
        Country.get_or_create code name' (rows1 ++ later)
        = (country, rows1 ++ later)))
  /\
  (forall (street1 : string) (street2 : option string) (city : Z)
          (rows : list Address.t),
     let address := fst (Address.get_or_create street1 street2 city rows) in
     let rows1 := snd (Address.get_or_create street1 street2 city rows) in
     In address rows1 /\
     (Address.street1 address = street1 /\
      Address.street2 address = street2 /\
      Address.city address = city) /\
     (Forall (fun a => ~ (Address.street1 a = street1 /\
                          Address.street2 a = street2 /\
                          Address.city a = city)) rows ->
      address = Address.mk (next_id Address.id rows) street1 street2 city /\
      rows1 = rows ++ [address]) /\
     (Exists (fun a => Address.street1 a = street1 /\
                       Address.street2 a = street2 /\
                       Address.city a = city) rows ->
      In address rows /\ rows1 = rows) /\
     (forall later,
        Address.get_or_create street1 street2 city (rows1 ++ later)
        = (address, rows1 ++ later))).
Proof.
  split.
  - exact Country_get_or_create_spec.
  - exact Address_get_or_create_spec.
Qed.

(** The table holds the Netherlands and Amsterdam.  Belgium is created by
    the first call, after both; a second call with another name, made once
    Brussels was added, returns the record of the first and leaves the
    table as it is. *)
Lemma get_or_create_idempotent_witness :
  let netherlands :=
    GeographicBoundary.mk 1 (Some "NL") "Netherlands"
      GeographicBoundary.country in
  let amsterdam :=
    GeographicBoundary.mk 2 (Some "1011") "Amsterdam"
      (GeographicBoundary.city 1) in
  let belgium :=
    GeographicBoundary.mk 3 (Some "BE") "Belgium"
      GeographicBoundary.country in
  let brussels :=
    GeographicBoundary.mk 4 (Some "1000") "Brussels"
      (GeographicBoundary.city 3) in
  let rows := [netherlands; amsterdam] in
  Forall (fun g => ~ (GeographicBoundary.row_type g
                      = GeographicBoundary.country /\
                      GeographicBoundary.code g = Some "BE")) rows /\
  Country.get_or_create (Some "BE") "Belgium" rows
  = (belgium, [netherlands; amsterdam; belgium]) /\
  Country.get_or_create (Some "BE") "Belgique"
    [netherlands; amsterdam; belgium; brussels]
  = (belgium, [netherlands; amsterdam; belgium; brussels]).
Proof.
  intros netherlands amsterdam belgium brussels rows.
  assert (Hnone : Forall (fun g => ~ (GeographicBoundary.row_type g
                                      = GeographicBoundary.country /\
                                      GeographicBoundary.code g = Some "BE"))
                    rows).
  { repeat constructor; simpl; intros [? ?]; discriminate. }
  split; [exact Hnone|].
  destruct (proj1 get_or_create_idempotent (Some "BE") "Belgium" rows)
    as (_ & _ & Hcreated & _ & Hlater).
  destruct (Hcreated Hnone) as (Hcountry & _ & Hrows).
  assert (Hfirst : Country.get_or_create (Some "BE") "Belgium" rows
                   = (belgium, [netherlands; amsterdam; belgium])).
  { rewrite (surjective_pairing (Country.get_or_create _ _ rows)).
    rewrite Hrows, Hcountry. reflexivity. }
  split; [exact Hfirst|].
  specialize (Hlater "Belgique" [brussels]).
  rewrite Hfirst in Hlater. exact Hlater.
Defined.

(** *** [PartyAddress.__setattr__] *)

Lemma substring_all (s : string) : String.substring 0 (String.length s) s = s.
Proof. induction s as [|c s IH]; simpl; [reflexivity|now rewrite IH]. Qed.

(** The pieces [__setattr__] cuts the name of a virtual attribute into. *)
Lemma address_attribute_rest (rest : string) :
  String.prefix "address_" (String.append "address_" rest) = true /\
  String.substring 8
    (String.length (String.append "address_" rest) - 8)%nat
    (String.append "address_" rest) = rest.
Proof.
  split.
  - simpl. now destruct rest.
  - simpl. rewrite Nat.sub_0_r. apply substring_all.
Qed.

Lemma hidden_attribute_not_address (rest : string) :
  String.append "_address_" rest <> "address".
Proof. discriminate. Qed.

Lemma getattr_address_hidden (self : gmap string value) rest v :
  getattr (<[String.append "_address_" rest := v]> self) "address"
  = getattr self "address".
Proof.
  unfold getattr. rewrite lookup_insert_ne; [reflexivity|].
  apply hidden_attribute_not_address.
Qed.

(** With an [Address] attached, the value is written through to it. *)
Lemma setattr_writes_through (self : gmap string value) (rest : string)
    (v : value) (addresses : gmap Z (gmap string value)) (a : Z) :
  getattr self "address" = VEntity a ->
  __setattr__ self (String.append "address_" rest) v addresses
  = Ok (<[String.append "_address_" rest := v]> self,
        alter (fun d => <[rest := v]> d) a addresses).
Proof.
  intros Ha. unfold __setattr__.
  destruct (address_attribute_rest rest) as [-> ->].
  now rewrite getattr_address_hidden, Ha.
Qed.

(** Without one, an [Address] is created as soon as street and city are
    both there. *)
Lemma setattr_creates (self : gmap string value) (rest : string)
    (v : value) (addresses : gmap Z (gmap string value)) :
  getattr self "address" = VNone ->
  let self1 := <[String.append "_address_" rest := v]> self in
  getattr self1 "_address_street1" <> VNone ->
  getattr self1 "_address_city" <> VNone ->
  addresses !! fresh (dom addresses) = None /\
  __setattr__ self (String.append "address_" rest) v addresses
  = Ok (<["address" := VEntity (fresh (dom addresses))]> self1,
        <[fresh (dom addresses) :=
            <["street1" := getattr self1 "_address_street1"]>
              (<["city" := getattr self1 "_address_city"]> ∅)]> addresses).
Proof.
  intros Ha self1 Hstreet Hcity. split.
  - apply not_elem_of_dom, is_fresh.
  - unfold __setattr__.
    destruct (address_attribute_rest rest) as [-> ->]. fold self1.
    unfold self1 at 1 2. rewrite getattr_address_hidden, Ha. simpl.
    now rewrite !bool_decide_eq_true_2 by assumption.
Qed.

(** *** [PartyAdmin.flush] *)

Lemma flush_loop_deleted (cms : list (Z * Z)) : forall objects session,
  let r := flush_loop true cms objects session in
  (forall x, In x objects -> In x (fst r)) /\
  (forall x, x ∈ deleted session -> x ∈ deleted (snd r)) /\
  (forall pcm cm, In (pcm, cm) cms ->
     In pcm (fst r) /\ pcm ∈ deleted (snd r)).
Proof.
  induction cms as [|[pcm0 cm0] cms IH]; intros objects session; simpl.
  - split; [auto|]. split; [auto|]. intros pcm cm [].
  - destruct (IH (objects ++ [pcm0; cm0]) (Session_delete pcm0 session))
      as (Hobj & Hdel & Hcms).
    split; [|split].
    + intros x Hx. apply Hobj, in_or_app. now left.
    + intros x Hx. apply Hdel. simpl. apply elem_of_union. now right.
    + intros pcm cm [[= <- <-]|Hin].
      * split.
        -- apply Hobj, in_or_app. right. now left.
        -- apply Hdel. simpl. apply elem_of_union. left.
           now apply elem_of_singleton.
      * now apply (Hcms pcm cm).
Qed.

(** Flushing a party that is marked deleted deletes the rows of its party
    contact mechanisms. *)
Lemma flush_deleted_party (session : Session) (party : PartyObject) :
  party_ident party ∈ deleted session ->
  exists session', flush (Some session) party = Some session' /\
    forall pcm cm, In (pcm, cm) (contact_mechanisms party) ->
      pcm ∉ persistent session'.
Proof.
  intros Hdeleted. unfold flush.
  rewrite bool_decide_eq_true_2 by assumption.
  pose proof (flush_loop_deleted (contact_mechanisms party)
                [party_ident party] session) as (_ & _ & Hcms).
  destruct (flush_loop true (contact_mechanisms party) [party_ident party]
              session) as [objects session1].
  eexists. split; [reflexivity|]. simpl in *.
  intros pcm cm Hin. destruct (Hcms pcm cm Hin) as [Hobj Hdel].
  intros Hp. apply elem_of_difference in Hp as [_ Hnot]. apply Hnot.
  apply elem_of_intersection. split; [exact Hdel|].
  apply elem_of_list_to_set. now apply list_elem_of_In.
Qed.

(** C6, amended.  The entity classes do create, rewrite and delete related
    records themselves.  Assigning a virtual attribute [address_<x>] of a
    party address: with an [Address] attached, stores the value as
    attribute [<x>] of that [Address] and leaves every other [Address]
    alone; with none attached and street and city both set after the
    assignment, creates an [Address] that was not there before, with that
    street and city, and attaches it.  [PartyAdmin.flush] of a party that
    is marked deleted deletes the rows of all its party contact
    mechanisms. *)
Theorem related_records_maintained_by_entities :
  (forall (self : gmap string value) (rest : string) (v : value)
          (addresses : gmap Z (gmap string value)) (a : Z),
     getattr self "address" = VEntity a ->
     exists self' addresses',
       __setattr__ self (String.append "address_" rest) v addresses
       = Ok (self', addresses') /\
       addresses' !! a = (fun d => <[rest := v]> d) <$> addresses !! a /\
       (forall b, b <> a -> addresses' !! b = addresses !! b) /\
       getattr self' "address" = VEntity a)
  /\
  (forall (self : gmap string value) (rest : string) (v : value)
          (addresses : gmap Z (gmap string value)),
     getattr self "address" = VNone ->
     let self1 := <[String.append "_address_" rest := v]> self in
     getattr self1 "_address_street1" <> VNone ->
     getattr self1 "_address_city" <> VNone ->
     exists self' addresses' a,
       __setattr__ self (String.append "address_" rest) v addresses
       = Ok (self', addresses') /\
       addresses !! a = None /\
       getattr self' "address" = VEntity a /\
       addresses' !! a
       = Some (<["street1" := getattr self1 "_address_street1"]>
                 (<["city" := getattr self1 "_address_city"]> ∅)) /\
       (forall b, b <> a -> addresses' !! b = addresses !! b))
  /\
  (forall (session : Session) (party : PartyObject),
     party_ident party ∈ deleted session ->
     exists session', flush (Some session) party = Some session' /\
       forall pcm cm, In (pcm, cm) (contact_mechanisms party) ->
         pcm ∉ persistent session').
Proof.
  split; [|split].
  - intros self rest v addresses a Ha.
    rewrite (setattr_writes_through self rest v addresses a Ha).
    eexists _, _. split; [reflexivity|].
    split; [|split].
    + rewrite lookup_alter. now rewrite decide_True.
    + intros b Hb. rewrite lookup_alter. now rewrite decide_False.
    + now rewrite getattr_address_hidden.
  - intros self rest v addresses Ha self1 Hstreet Hcity.
    destruct (setattr_creates self rest v addresses Ha Hstreet Hcity)
      as [Hfresh Heq].
    eexists _, _, (fresh (dom addresses)). split; [exact Heq|].
    split; [exact Hfresh|]. split; [|split].
    + unfold getattr. now rewrite lookup_insert_eq.
    + now rewrite lookup_insert_eq.
    + intros b Hb. now rewrite lookup_insert_ne.
  - exact flush_deleted_party.
Qed.

(** C6, as stated, fails: setting the street of a party address that has a
    city and no [Address] yet creates an [Address] record. *)
Lemma setattr_creates_a_related_record :
  ~ (forall (self : gmap string value) (attr : string) (v : value)
            (addresses : gmap Z (gmap string value)) self' addresses',
       __setattr__ self attr v addresses = Ok (self', addresses') ->
       addresses' = addresses).
Proof.
  intros Hnone.
  assert (Hstreet : getattr (<["_address_street1" := VUnicode "Main Street"]>
                      ({["_address_city" := VEntity 3]} : gmap string value))
                      "_address_street1" <> VNone).
  { unfold getattr. now rewrite lookup_insert_eq. }
  assert (Hcity : getattr (<["_address_street1" := VUnicode "Main Street"]>
                    ({["_address_city" := VEntity 3]} : gmap string value))
                    "_address_city" <> VNone).
  { unfold getattr. rewrite lookup_insert_ne by discriminate.
    now rewrite lookup_singleton_eq. }
  assert (Hno : getattr ({["_address_city" := VEntity 3]} : gmap string value)
                  "address" = VNone).
  { unfold getattr. now rewrite lookup_singleton_ne by discriminate. }
  destruct (setattr_creates {["_address_city" := VEntity 3]} "street1"
              (VUnicode "Main Street") ∅ Hno Hstreet Hcity) as [_ Heq].
  apply Hnone in Heq.
  apply (f_equal (fun m => m !! fresh (dom (∅ : gmap Z (gmap string value)))))
    in Heq.
  rewrite lookup_insert_eq, lookup_empty in Heq. discriminate.
Qed.

(** A street written through to address 1, an address created for a party
    address with city 3, and the contact mechanism 4 of the deleted party 3
    deleted with it. *)
Lemma related_records_maintained_by_entities_witness :
  (getattr ({["address" := VEntity 1]} : gmap string value) "address"
   = VEntity 1 /\
   exists self' addresses',
     __setattr__ {["address" := VEntity 1]} "address_street1"
       (VUnicode "Main Street") {[1 := {["street1" := VUnicode "Side Street"]}]}
     = Ok (self', addresses') /\
     addresses' !! 1 = Some {["street1" := VUnicode "Main Street"]})
  /\
  ((getattr ({["_address_city" := VEntity 3]} : gmap string value) "address"
    = VNone /\
    getattr (<["_address_street1" := VUnicode "Main Street"]>
               ({["_address_city" := VEntity 3]} : gmap string value))
      "_address_street1" <> VNone /\
    getattr (<["_address_street1" := VUnicode "Main Street"]>
               ({["_address_city" := VEntity 3]} : gmap string value))
      "_address_city" <> VNone) /\
   exists self' addresses' a,
     __setattr__ {["_address_city" := VEntity 3]} "address_street1"
       (VUnicode "Main Street") ∅
     = Ok (self', addresses') /\
     getattr self' "address" = VEntity a /\
     addresses' !! a
     = Some (<["street1" := VUnicode "Main Street"]>
               (<["city" := VEntity 3]> ∅)))
  /\
  (3 ∈ deleted (mkSession {[3; 4; 5]} {[3]}) /\
   exists session',
     flush (Some (mkSession {[3; 4; 5]} {[3]})) (mkParty 3 [(4, 5)])
     = Some session' /\ 4 ∉ persistent session').
Proof.
  split; [|split].
  - assert (Ha : getattr ({["address" := VEntity 1]} : gmap string value)
                   "address" = VEntity 1).
    { unfold getattr. now rewrite lookup_singleton_eq. }
    split; [exact Ha|].
    destruct (proj1 related_records_maintained_by_entities
                {["address" := VEntity 1]} "street1" (VUnicode "Main Street")
                {[1 := {["street1" := VUnicode "Side Street"]}]} 1 Ha)
      as (self' & addresses' & Heq & Hwritten & _).
    exists self', addresses'. split; [exact Heq|].
    rewrite Hwritten, lookup_singleton_eq. simpl.
    now rewrite insert_singleton_eq.
  - assert (Hno : getattr ({["_address_city" := VEntity 3]}
                             : gmap string value) "address" = VNone).
    { unfold getattr. now rewrite lookup_singleton_ne by discriminate. }
    assert (Hstreet : forall k, k = "_address_street1" ->
              getattr (<[k := VUnicode "Main Street"]>
                         {["_address_city" := VEntity 3]})
                "_address_street1" = VUnicode "Main Street").
    { intros k ->. unfold getattr. now rewrite lookup_insert_eq. }
    assert (Hcity : forall k, k = "_address_street1" ->
              getattr (<[k := VUnicode "Main Street"]>
                         {["_address_city" := VEntity 3]})
                "_address_city" = VEntity 3).
    { intros k ->. unfold getattr. rewrite lookup_insert_ne by discriminate.
      now rewrite lookup_singleton_eq. }
    split.
    { split; [exact Hno|]. unfold getattr. split.
      - now rewrite lookup_insert_eq.
      - rewrite lookup_insert_ne by discriminate.
        now rewrite lookup_singleton_eq. }
    destruct (proj1 (proj2 related_records_maintained_by_entities)
                {["_address_city" := VEntity 3]} "street1"
                (VUnicode "Main Street") ∅ Hno)
      as (self' & addresses' & a & Heq & _ & Hlinked & Hcreated & _).
    + rewrite (Hstreet (String.append "_address_" "street1") eq_refl).
      discriminate.
    + rewrite (Hcity (String.append "_address_" "street1") eq_refl).
      discriminate.
    + exists self', addresses', a. split; [exact Heq|].
      split; [exact Hlinked|].
      now rewrite (Hstreet (String.append "_address_" "street1") eq_refl),
        (Hcity (String.append "_address_" "street1") eq_refl) in Hcreated.
  - assert (Hd : 3 ∈ deleted (mkSession {[3; 4; 5]} {[3]})).
    { simpl. now apply elem_of_singleton. }
    split; [exact Hd|].
    destruct (proj2 (proj2 related_records_maintained_by_entities)
                (mkSession {[3; 4; 5]} {[3]}) (mkParty 3 [(4, 5)]) Hd)
      as (session' & Heq & Hrows).
    exists session'. split; [exact Heq|].
    apply (Hrows 4 5). now left.
Defined.

End PartyFacts.

(** ** Validation *)

Module ValidatorFacts.
Import EntityValidator.
Local Open Scope Z_scope.

(** C9. [EntityValidator.validate_object] returns the empty list for an
    object without a session and for an object in the [deleted] set of its
    session, whatever the validation of the base class would do with it;
    an attached object that is not deleted gets the validation of the base
    class.  When [orm.object_session] raises, for an object that is not
    mapped, its exception is what comes out. *)
Theorem validate_object_skips_detached_and_deleted
    (object_session : Z -> result (option Session))
    (ObjectValidator_validate_object : Z -> result (list string)) (obj : Z) :
  (object_session obj = Ok None ->
   validate_object object_session ObjectValidator_validate_object obj
   = Ok [])
  /\
  (forall session, object_session obj = Ok (Some session) ->
     obj ∈ deleted session ->
     validate_object object_session ObjectValidator_validate_object obj
     = Ok [])
  /\
  (forall session, object_session obj = Ok (Some session) ->
     obj ∉ deleted session ->
     validate_object object_session ObjectValidator_validate_object obj
     = ObjectValidator_validate_object obj)
  /\
  (forall e, object_session obj = Raise e ->
     validate_object object_session ObjectValidator_validate_object obj
     = Raise e).
Proof.
  unfold validate_object. split; [|split; [|split]].
  - now intros ->.
  - intros session -> Hdel. simpl. now rewrite bool_decide_eq_true_2.
  - intros session -> Hdel. simpl. now rewrite bool_decide_eq_false_2.
  - now intros e ->.
Qed.

(** Object 0 has no session, object 2 is deleted, object 1 is neither, and
    object 9 is not mapped. *)
Lemma validate_object_skips_detached_and_deleted_witness :
  let session := mkSession {[1; 2]} {[2]} in
  let unmapped :=
    mkExn ORM "UnmappedInstanceError" "Class 'int' is not mapped" in
  let object_session (obj : Z) : result (option Session) :=
    if bool_decide (obj = 0) then Ok None
    else if bool_decide (obj = 9) then Raise unmapped
    else Ok (Some session) in
  let base (obj : Z) : result (list string) :=
    Ok ["name is a required field"] in
  (object_session 0 = Ok None /\
   validate_object object_session base 0 = Ok [])
  /\
  ((object_session 2 = Ok (Some session) /\ 2 ∈ deleted session) /\
   validate_object object_session base 2 = Ok [])
  /\
  ((object_session 1 = Ok (Some session) /\ 1 ∉ deleted session) /\
   validate_object object_session base 1 = Ok ["name is a required field"])
  /\
  (object_session 9 = Raise unmapped /\
   validate_object object_session base 9 = Raise unmapped).
Proof.
  intros session unmapped object_session base.
  assert (H0 : object_session 0 = Ok None) by reflexivity.
  assert (H1 : object_session 1 = Ok (Some session)) by reflexivity.
  assert (H2 : object_session 2 = Ok (Some session)) by reflexivity.
  assert (H9 : object_session 9 = Raise unmapped) by reflexivity.
  assert (Hd2 : 2 ∈ deleted session) by (simpl; now apply elem_of_singleton).
  assert (Hd1 : 1 ∉ deleted session).
  { simpl. intros Hin. apply elem_of_singleton in Hin. discriminate. }
  split; [|split; [|split]].
  - split; [exact H0|].
    exact (proj1 (validate_object_skips_detached_and_deleted
                    object_session base 0) H0).
  - split; [split; [exact H2|exact Hd2]|].
    exact (proj1 (proj2 (validate_object_skips_detached_and_deleted
                           object_session base 2)) session H2 Hd2).
  - split; [split; [exact H1|exact Hd1]|].
    exact (proj1 (proj2 (proj2 (validate_object_skips_detached_and_deleted
                                  object_session base 1))) session H1 Hd1).
  - split; [exact H9|].
    exact (proj2 (proj2 (proj2 (validate_object_skips_detached_and_deleted
                                  object_session base 9))) unmapped H9).
Defined.

End ValidatorFacts.

(** ** Exceptions *)

Module ExceptionFacts.
Import EmbeddedMany2OneEditor.
Local Open Scope Z_scope.

(** C5, as stated, fails: with a getter that returns [ValueLoading],
    [set_entity_instance] raises an exception of the repository's own
    making, though nothing it calls raises. *)
Lemma set_entity_instance_raises_its_own_exception :
  ~ (forall (entity_instance_getter : unit -> result getter_value)
            (admin_entity : unit -> result Z) (e : exn),
       (forall e', entity_instance_getter tt = Raise e' -> passed_through e') ->
       (forall e', admin_entity tt = Raise e' -> passed_through e') ->
       set_entity_instance entity_instance_getter admin_entity = Raise e ->
       passed_through e).
Proof.
  intros Hall.
  destruct (Hall (fun _ => Ok ValueLoading) (fun _ => Ok 0%Z) Exception_Wooha)
    as [Horigin|Horigin]; try discriminate; reflexivity.
Qed.

(** C5, amended.  Not every error is passed through.
    [set_entity_instance] raises [Exception('Wooha')] itself whenever the
    getter returns [ValueLoading], whatever the entity constructor would
    do; an exception out of it is that one, or the one raised by the
    getter, or the one raised by the entity constructor when the getter
    returned [None].  [EntityValidator.validate_object] raises nothing
    itself: an exception out of it is the one raised by
    [orm.object_session], or the one raised by the validation of the base
    class on an attached object that is not deleted.  Errors the
    interpreter raises in the code of the repository surface as well, and
    they come neither from the ORM nor from the toolkit: [columnCount] of a
    table model without rows raises [IndexError]. *)
Theorem raised_and_passed_on_exceptions :
  (forall (entity_instance_getter : unit -> result getter_value)
          (admin_entity : unit -> result Z),
     entity_instance_getter tt = Ok ValueLoading ->
     set_entity_instance entity_instance_getter admin_entity
     = Raise Exception_Wooha)
  /\
  (forall (entity_instance_getter : unit -> result getter_value)
          (admin_entity : unit -> result Z) (e : exn),
     set_entity_instance entity_instance_getter admin_entity = Raise e ->
     entity_instance_getter tt = Raise e \/
     (entity_instance_getter tt = Ok NoEntity /\ admin_entity tt = Raise e) \/
     (entity_instance_getter tt = Ok ValueLoading /\ e = Exception_Wooha))
  /\
  (forall (object_session : Z -> result (option Session))
          (ObjectValidator_validate_object : Z -> result (list string))
          (obj : Z) (e : exn),
     EntityValidator.validate_object object_session
       ObjectValidator_validate_object obj = Raise e ->
     object_session obj = Raise e \/
     exists session,
       object_session obj = Ok (Some session) /\
       (obj ∉ deleted session) /\
       ObjectValidator_validate_object obj = Raise e)
  /\
  (forall headerdata : list string,
     exists e,
       InputTableModel.columnCount (InputTableModel.__init__ [] headerdata)
       = Raise e /\
       ~ passed_through e).
Proof.
  split; [|split; [|split]].
  - intros getter admin_entity Hloading. unfold set_entity_instance.
    now rewrite Hloading.
  - intros getter admin_entity e. unfold set_entity_instance.
    destruct (getter tt) as [[| |ident]|e0]; simpl.
    + intros [= <-]. right. right. now split.
    + intros He. right. left. now split.
    + discriminate.
    + intros [= <-]. now left.
  - intros object_session base obj e. unfold EntityValidator.validate_object.
    destruct (object_session obj) as [[session|]|e0]; simpl.
    + destruct (bool_decide (obj ∈ deleted session)) eqn:Hdel;
        [discriminate|].
      apply bool_decide_eq_false in Hdel. intros He. right. now exists session.
    + discriminate.
    + intros [= <-]. now left.
  - intros headerdata. exists InputTableModel.IndexError.
    split; [reflexivity|]. intros [Ho|Ho]; discriminate.
Qed.

(** The getter returns [None] and the entity constructor fails in the
    database. *)
Lemma raised_and_passed_on_exceptions_witness :
  let e := mkExn ORM "OperationalError" "database is locked" in
  let entity_instance_getter (_ : unit) : result getter_value := Ok NoEntity in
  let admin_entity (_ : unit) : result Z := Raise e in
  set_entity_instance entity_instance_getter admin_entity = Raise e /\
  (entity_instance_getter tt = Raise e \/
   (entity_instance_getter tt = Ok NoEntity /\ admin_entity tt = Raise e) \/
   (entity_instance_getter tt = Ok ValueLoading /\ e = Exception_Wooha)).
Proof.
  intros e entity_instance_getter admin_entity.
  assert (He : set_entity_instance entity_instance_getter admin_entity
               = Raise e) by reflexivity.
  split; [exact He|].
  exact (proj1 (proj2 raised_and_passed_on_exceptions)
           entity_instance_getter admin_entity e He).
Defined.

End ExceptionFacts.

(** ** The table model of the import wizard *)

Module InputTableModelFacts.
Import InputTableModel.

(** C10. For imported data with at least one row, [columnCount] returns the
    length of the first row; [rowCount] returns the number of rows.  The
    data has to have a row: on empty data [columnCount] raises
    [IndexError]. *)
Theorem columnCount_first_row (datain : list (list string))
    (headerdata : list string) :
  rowCount (__init__ datain headerdata) = length datain /\
  (forall row rest, datain = row :: rest ->
     columnCount (__init__ datain headerdata) = Ok (length row)) /\
  (datain = [] -> columnCount (__init__ datain headerdata) = Raise IndexError).
Proof.
  split; [reflexivity|]. split.
  - now intros row rest ->.
  - now intros ->.
Qed.

(** Two rows of four columns. *)
Lemma columnCount_first_row_witness :
  let datain := [["Janssens"; "Marie"; "00000000097"; "F"];
                 ["Peeters"; "Tom"; "00000000295"; "M"]] in
  datain = ["Janssens"; "Marie"; "00000000097"; "F"] :: tl datain /\
  columnCount (__init__ datain ["naam"; "voornaam"; "rijksregisternr";
                                "geslacht"]) = Ok 4%nat.
Proof.
  intros datain.
  assert (Hrows : datain
                  = ["Janssens"; "Marie"; "00000000097"; "F"] :: tl datain)
    by reflexivity.
  split; [exact Hrows|].
  exact (proj1 (proj2 (columnCount_first_row datain
                         ["naam"; "voornaam"; "rijksregisternr"; "geslacht"]))
           _ _ Hrows).
Defined.

End InputTableModelFacts.

(** * Further properties *)

(** ** Status histories: what a status change keeps and what it sets *)

Module StatusHistoryFacts.
Import TypeAndStatus StatusFacts.
Local Open Scope Z_scope.

Section Facts.

Context {status_type : Type}.
Variable end_of_times : date.

Local Abbreviation row := (@StatusHistory status_type).

Implicit Types h old : row.
Implicit Types rows : list row.

(** The fields of a record no status change touches. *)
Lemma supersede_keeps (today f : date) h :
  id (supersede today f h) = id h /\
  status_for (supersede today f h) = status_for h /\
  classified_by (supersede today f h) = classified_by h /\
  status_datetime (supersede today f h) = status_datetime h /\
  status_from_date (supersede today f h) = status_from_date h /\
  from_date (supersede today f h) = from_date h.
Proof. now repeat split. Qed.

(** [change_status] is the table with at most some rows superseded, and one
    row more. *)
Lemma change_status_shape (today : date) (self : Z)
    (new_status : status_type) (status_from_date' : option date)
    (status_thru_date' : kwarg (option date)) rows :
  let f := match status_from_date' with None => today | Some d => d end in
  let t := match status_thru_date' with
           | Omitted => Some end_of_times
           | Passed d => d
           end in
  exists g : row -> row,
    (forall h, g h = h \/ g h = supersede today f h) /\
    change_status end_of_times today self new_status status_from_date'
      status_thru_date' rows
    = map g rows
      ++ [mkStatusHistory (next_id rows) self new_status None (Some f) t
            today end_of_times].
Proof.
  intros f t. unfold change_status. fold f. fold t.
  destruct (List.find (old_status_filter self f) rows) as [old|].
  - exists (fun h => if id h =? id old then supersede today f h else h).
    split.
    + intros h. destruct (id h =? id old); auto.
    + fold (update_row (id old) (supersede today f) rows).
      rewrite (next_id_ext (update_row (id old) (supersede today f) rows)
                 rows); [reflexivity|].
      now apply update_row_ids.
  - exists (fun h => h). split; [now left|]. now rewrite map_id.
Qed.

Lemma firstn_snoc_same_length {A : Type} (l l' : list A) (x : A) :
  length l = length l' -> firstn (length l) (l' ++ [x]) = l'.
Proof.
  intros ->. rewrite firstn_app, Nat.sub_diag, firstn_all. simpl.
  apply app_nil_r.
Qed.

(** X1. A status change never rewrites the past.  When the call returns,
    the table has exactly one row more, and every row that was there is
    still there, in its place and as it was, but for the one record that
    is superseded (a record of the entity whose interval contains the new
    start date), of which only [status_thru_date] and [thru_date] change.
    The call does return when today and the new start date come after
    [datetime.date.min]. *)
Theorem change_status_keeps_history (today : date) (self : Z)
    (new_status : status_type) (status_from_date' : option date)
    (status_thru_date' : kwarg (option date)) rows :
  primary_key rows ->
  let f := match status_from_date' with None => today | Some d => d end in
  (forall rows',
     StatusMixin.change_status end_of_times today self new_status
       status_from_date' status_thru_date' (Some rows) = Ok rows' ->
     length rows' = S (length rows) /\
     (firstn (length rows) rows' = rows \/
      exists before old after,
        rows = before ++ old :: after /\
        status_for old = self /\ in_range f old /\
        firstn (length rows) rows'
        = before
          ++ mkStatusHistory (id old) (status_for old) (classified_by old)
               (status_datetime old) (status_from_date old) (Some (f - 1))
               (from_date old) (today - 1)
          :: after))
  /\ (date_min < today -> date_min < f ->
      exists rows',
        StatusMixin.change_status end_of_times today self new_status
          status_from_date' status_thru_date' (Some rows) = Ok rows').
Proof.
  intros Hpk f. split.
  - intros rows' Hcall.
    destruct (change_status_call_cases end_of_times today self new_status
                status_from_date' status_thru_date' rows Hpk)
      as [[(before & old & after & Hrows & Hself & Hrange & _ & Heq)
          |[_ Heq]] _];
      fold f in Heq; rewrite Heq in Hcall.
    + fold f in Hrange.
      destruct ((date_min <? today) && (date_min <? f)); [|discriminate].
      injection Hcall as <-. subst rows.
      rewrite app_comm_cons, app_assoc. split.
      * rewrite !length_app. simpl. lia.
      * right. exists before, old, after.
        split; [reflexivity|]. split; [exact Hself|]. split; [exact Hrange|].
        apply firstn_snoc_same_length. rewrite !length_app. reflexivity.
    + injection Hcall as <-. split.
      * rewrite length_app. simpl. lia.
      * left. now apply firstn_snoc_same_length.
  - intros Htoday Hf. eexists.
    now apply change_status_call_returns.
Qed.

(** X2. A status change on one entity leaves the status collection of every
    other entity as it is. *)
Theorem change_status_leaves_other_entities (today : date) (self other : Z)
    (new_status : status_type) (status_from_date' : option date)
    (status_thru_date' : kwarg (option date)) rows :
  primary_key rows -> other <> self ->
  status self (change_status end_of_times today other new_status
                 status_from_date' status_thru_date' rows)
  = status self rows.
Proof.
  intros Hpk Hne. now apply change_status_other_entity.
Qed.

(** *** The current status after a change *)

Lemma order_by_id_desc_limit_1_last (l : list row) (n : row) :
  Forall (fun h => id h < id n) l ->
  order_by_id_desc_limit_1 (l ++ [n]) = Some n.
Proof.
  induction 1 as [|x l Hx _ IH]; simpl; [reflexivity|].
  rewrite IH. destruct (id n <? id x) eqn:E; [|reflexivity].
  apply Z.ltb_lt in E. lia.
Qed.

Lemma next_id_map (g : row -> row) rows :
  (forall h, id (g h) = id h) -> next_id (map g rows) = next_id rows.
Proof.
  intros Hg. apply next_id_ext. rewrite map_map. apply map_ext. exact Hg.
Qed.

(** The SQL side after a change, at any date the new record is valid at. *)
Lemma query_after_change_status (today : date) (self : Z)
    (new_status : status_type) (status_from_date' : option date)
    (status_thru_date' : kwarg (option date)) rows (d thru : date) :
  let f := match status_from_date' with None => today | Some d' => d' end in
  match status_thru_date' with
  | Omitted => Some end_of_times
  | Passed t => t
  end = Some thru ->
  f <= d <= thru ->
  current_status_query d self
    (change_status end_of_times today self new_status status_from_date'
       status_thru_date' rows)
  = Some new_status.
Proof.
  intros f Hthru Hd.
  destruct (change_status_shape today self new_status status_from_date'
              status_thru_date' rows) as (g & Hg & ->).
  fold f. rewrite Hthru.
  set (new := mkStatusHistory (next_id rows) self new_status None (Some f)
                (Some thru) today end_of_times).
  unfold current_status_query. rewrite List.filter_app. simpl.
  assert (Hnew : current_status_filter d self new = true).
  { rewrite current_status_filter_valid_at. simpl. rewrite Z.eqb_refl. simpl.
    apply valid_at_in_range. exists f, thru. now repeat split. }
  rewrite Hnew, order_by_id_desc_limit_1_last; [reflexivity|].
  apply List.Forall_forall. intros h Hin.
  apply List.filter_In in Hin as [Hin _].
  apply in_map_iff in Hin as (h0 & <- & Hin0).
  apply next_id_above in Hin0. simpl.
  destruct (Hg h0) as [-> | ->]; simpl; lia.
Qed.

(** X3. When [change_status] returns, at every date within the interval
    of the new record (today, with the default dates, as long as today is
    not after [end_of_times]), [current_status_query] gives the new status,
    whatever the table held before.  The call does return when today and
    the new start date come after [datetime.date.min]. *)
Theorem current_status_query_after_change_status (today : date) (self : Z)
    (new_status : status_type) (status_from_date' : option date)
    (status_thru_date' : kwarg (option date)) rows (d thru : date) :
  let f := match status_from_date' with None => today | Some d' => d' end in
  match status_thru_date' with
  | Omitted => Some end_of_times
  | Passed t => t
  end = Some thru ->
  f <= d <= thru ->
  (forall rows',
     StatusMixin.change_status end_of_times today self new_status
       status_from_date' status_thru_date' (Some rows) = Ok rows' ->
     current_status_query d self rows' = Some new_status)
  /\ (date_min < today -> date_min < f ->
      exists rows',
        StatusMixin.change_status end_of_times today self new_status
          status_from_date' status_thru_date' (Some rows) = Ok rows').
Proof.
  intros f Hthru Hd. split.
  - intros rows' Hcall. apply change_status_call_returned in Hcall as ->.
    now apply query_after_change_status with (thru := thru).
  - intros Htoday Hf. eexists. now apply change_status_call_returns.
Qed.

Lemma status_map self (g : row -> row) rows :
  (forall h, status_for (g h) = status_for h) ->
  status self (map g rows) = map g (status self rows).
Proof.
  intros Hg. unfold status. induction rows as [|h rows IH]; simpl; auto.
  rewrite Hg. destruct (status_for h =? self); simpl; now rewrite IH.
Qed.

(** The Python side after a change, on the table the call leaves. *)
Lemma current_status_after_change_status_table (today : date) (self : Z)
    (new_status : status_type) (status_from_date' : option date)
    (status_thru_date' : kwarg (option date)) rows (d thru : date) :
  let f := match status_from_date' with None => today | Some d' => d' end in
  let rows' := change_status end_of_times today self new_status
                 status_from_date' status_thru_date' rows in
  primary_key rows ->
  Forall (fun h => status_from_date h <> None /\ status_thru_date h <> None)
    (status self rows) ->
  non_overlapping (status self rows) ->
  Forall (fun h => forall fh, status_from_date h = Some fh -> fh <= f)
    (status self rows) ->
  match status_thru_date' with
  | Omitted => Some end_of_times
  | Passed t => t
  end = Some thru ->
  f <= d <= thru ->
  current_status d (status self rows') = Ok (Some new_status) /\
  current_status d (status self rows')
  = Ok (current_status_query d self rows').
Proof.
  intros f rows' Hpk Hnull Hno Hfrom Hthru Hd.
  assert (Hquery : current_status_query d self rows' = Some new_status)
    by now apply query_after_change_status with (thru := thru).
  assert (Hagree : current_status d (status self rows')
                   = Ok (current_status_query d self rows')).
  { apply current_status_agree.
    - subst rows'.
      destruct (change_status_shape today self new_status status_from_date'
                  status_thru_date' rows) as (g & Hg & ->).
      fold f. rewrite Hthru, status_app, status_map.
      + apply List.Forall_app. split.
        * apply List.Forall_forall. intros h' Hin.
          apply in_map_iff in Hin as (h & <- & Hin).
          rewrite List.Forall_forall in Hnull.
          destruct (Hnull h Hin) as [Hf Ht].
          destruct (Hg h) as [-> | ->]; [now split|].
          split; [exact Hf|discriminate].
        * rewrite status_cons_same by reflexivity.
          constructor; [|constructor]. split; discriminate.
      + intros h. destruct (Hg h) as [-> | ->]; reflexivity.
    - apply (change_status_same_entity end_of_times today self new_status
               status_from_date' status_thru_date' rows Hpk).
      + now apply non_overlapping_count.
      + exact Hfrom. }
  split; [now rewrite Hagree, Hquery|exact Hagree].
Qed.

(** X4. On a history without NULL dates and without overlaps, in which no
    record starts after the new one, the Python side of the hybrid
    property gives the new status too when [change_status] returns, at
    every date within the interval of the new record, and the two sides
    agree.  The call does return when today and the new start date come
    after [datetime.date.min]. *)
Theorem current_status_after_change_status (today : date) (self : Z)
    (new_status : status_type) (status_from_date' : option date)
    (status_thru_date' : kwarg (option date)) rows (d thru : date) :
  let f := match status_from_date' with None => today | Some d' => d' end in
  primary_key rows ->
  Forall (fun h => status_from_date h <> None /\ status_thru_date h <> None)
    (status self rows) ->
  non_overlapping (status self rows) ->
  Forall (fun h => forall fh, status_from_date h = Some fh -> fh <= f)
    (status self rows) ->
  match status_thru_date' with
  | Omitted => Some end_of_times
  | Passed t => t
  end = Some thru ->
  f <= d <= thru ->
  (forall rows',
     StatusMixin.change_status end_of_times today self new_status
       status_from_date' status_thru_date' (Some rows) = Ok rows' ->
     current_status d (status self rows') = Ok (Some new_status) /\
     current_status d (status self rows')
     = Ok (current_status_query d self rows'))
  /\ (date_min < today -> date_min < f ->
      exists rows',
        StatusMixin.change_status end_of_times today self new_status
          status_from_date' status_thru_date' (Some rows) = Ok rows').
Proof.
  intros f Hpk Hnull Hno Hfrom Hthru Hd. split.
  - intros rows' Hcall. apply change_status_call_returned in Hcall as ->.
    now apply current_status_after_change_status_table with (thru := thru).
  - intros Htoday Hf. eexists. now apply change_status_call_returns.
Qed.


(** *** NULL dates *)

(** X5. [get_status_history_at] raises [TypeError] when its loop comes to a
    record with a NULL [status_from_date], or to one that started by the
    date and has a NULL [status_thru_date], before it has found a valid
    record. *)
Theorem get_status_history_at_raises_on_null (today : date)
    (before after : list row) h (status_date : option date) :
  let d := match status_date with None => today | Some d => d end in
  Forall (fun x => (status_from_date x <> None /\ status_thru_date x <> None)
                   /\ ~ in_range d x) before ->
  (status_from_date h = None \/
   exists f, status_from_date h = Some f /\ f <= d /\
             status_thru_date h = None) ->
  get_status_history_at today (before ++ h :: after) status_date
  = Raise TypeError_date_None.
Proof.
  intros d Hbefore Hnull. unfold get_status_history_at. fold d.
  induction Hbefore as [|x before [[Hf Ht] Hout] _ IH]; simpl.
  - destruct Hnull as [-> | (f & -> & Hle & ->)]; [reflexivity|].
    simpl. apply Z.leb_le in Hle. now rewrite Hle.
  - destruct (status_from_date x) as [fx|] eqn:Efx; [|congruence].
    destruct (status_thru_date x) as [tx|] eqn:Etx; [|congruence].
    unfold py_ge. simpl. destruct (fx <=? d) eqn:Hfx; simpl; [|exact IH].
    destruct (d <=? tx) eqn:Htx; simpl; [|exact IH].
    exfalso. apply Hout. exists fx, tx.
    apply Z.leb_le in Hfx, Htx. now repeat split.
Qed.

(** *** The row [current_status_query] selects *)

Lemma order_by_id_desc_limit_1_greatest (l : list row) :
  match order_by_id_desc_limit_1 l with
  | Some h => In h l /\ Forall (fun h' => id h' <= id h) l
  | None => l = []
  end.
Proof.
  induction l as [|x l IH]; simpl; [reflexivity|].
  destruct (order_by_id_desc_limit_1 l) as [h|].
  - destruct IH as [Hin Hall]. destruct (id h <? id x) eqn:E.
    + apply Z.ltb_lt in E. split; [now left|].
      constructor; [lia|].
      eapply List.Forall_impl; [|exact Hall]. simpl. intros. lia.
    + apply Z.ltb_ge in E. split; [now right|]. now constructor.
  - subst l. split; [now left|]. constructor; [lia|constructor].
Qed.

(** X6. [current_status_query] gives the classification of a row of the
    entity that is valid today and has the greatest [id] among those; it
    gives NULL exactly when no row of the entity is valid today. *)
Theorem current_status_query_greatest_id (today : date) (self : Z) rows :
  match current_status_query today self rows with
  | Some s =>
      exists h, In h rows /\ status_for h = self /\ in_range today h /\
                classified_by h = s /\
                forall h', In h' rows -> status_for h' = self ->
                           in_range today h' -> id h' <= id h
  | None => Forall (fun h => ~ (status_for h = self /\ in_range today h)) rows
  end.
Proof.
  unfold current_status_query.
  pose proof (order_by_id_desc_limit_1_greatest
                (List.filter (current_status_filter today self) rows)) as Hsel.
  destruct (order_by_id_desc_limit_1 _) as [h|]; simpl.
  - destruct Hsel as [Hin Hall]. apply List.filter_In in Hin as [Hin Hh].
    rewrite current_status_filter_valid_at in Hh.
    apply andb_true_iff in Hh as [Hself Hvalid].
    apply Z.eqb_eq in Hself. apply valid_at_in_range in Hvalid.
    exists h. repeat split; auto.
    intros h' Hin' Hself' Hvalid'. rewrite List.Forall_forall in Hall.
    apply Hall, List.filter_In. split; [exact Hin'|].
    rewrite current_status_filter_valid_at, Hself', Z.eqb_refl. simpl.
    now apply valid_at_in_range.
  - apply List.Forall_forall. intros h Hin [Hself Hvalid].
    assert (Hf : In h (List.filter (current_status_filter today self) rows)).
    { apply List.filter_In. split; [exact Hin|].
      rewrite current_status_filter_valid_at, Hself, Z.eqb_refl. simpl.
      now apply valid_at_in_range. }
    now rewrite Hsel in Hf.
Qed.

(** *** [ChangeStatus.model_run] *)




(** *** [get_status_from_date] *)

Lemma sort_insert_reverse_head (key : row -> Z) h (sorted : list row) :
  exists y rest, sort_insert_reverse key h sorted = y :: rest /\
    key h <= key y /\
    (y = h \/ exists rest0, sorted = y :: rest0) /\
    (forall x rest0, sorted = x :: rest0 -> key x <= key y).
Proof.
  destruct sorted as [|x rest]; simpl.
  - exists h, []. repeat split; auto; try lia. discriminate.
  - destruct (key x <=? key h) eqn:E.
    + apply Z.leb_le in E. exists h, (x :: rest).
      repeat split; auto; try lia. now intros x0 rest0 [= <- _].
    + apply Z.leb_gt in E. eexists x, _. split; [reflexivity|].
      repeat split; try lia; [right; now exists rest|].
      intros x0 rest0 [= <- _]. lia.
Qed.

Lemma sort_reverse_head (key : row -> Z) (l : list row) :
  match sort_reverse key l with
  | y :: _ => In y l /\ Forall (fun x => key x <= key y) l
  | [] => l = []
  end.
Proof.
  induction l as [|h l IH]; simpl; [reflexivity|].
  destruct (sort_insert_reverse_head key h (sort_reverse key l))
    as (y & rest & -> & Hh & Hy & Hmax).
  destruct (sort_reverse key l) as [|y0 rest0].
  - subst l. destruct Hy as [->|(rest0 & [=])].
    split; [now left|]. constructor; [lia|constructor].
  - destruct IH as [Hin Hall]. specialize (Hmax y0 rest0 eq_refl). split.
    + destruct Hy as [->|(rest1 & [= <- _])]; [now left|now right].
    + constructor; [exact Hh|].
      eapply List.Forall_impl; [|exact Hall]. simpl. intros. lia.
Qed.

Section StatusFromDate.

Context `{!EqDecision status_type}.

(** X7. [get_status_from_date] gives the latest [from_date] among the
    records with the given classification, and [None] exactly when there
    is no such record. *)
Theorem get_status_from_date_latest (status' : list row)
    (classified_by' : status_type) :
  match get_status_from_date status' classified_by' with
  | Some latest =>
      (exists h, In h status' /\ classified_by h = classified_by' /\
                 from_date h = latest) /\
      forall h, In h status' -> classified_by h = classified_by' ->
                from_date h <= latest
  | None => Forall (fun h => classified_by h <> classified_by') status'
  end.
Proof.
  unfold get_status_from_date.
  set (selected := List.filter _ status').
  assert (Hsel : forall h, In h selected <->
                           In h status' /\ classified_by h = classified_by').
  { intros h. unfold selected. rewrite List.filter_In, bool_decide_eq_true.
    tauto. }
  pose proof (sort_reverse_head from_date selected) as Hhead.
  destruct (sort_reverse from_date selected) as [|y rest].
  - rewrite Hhead. simpl. apply List.Forall_forall. intros h Hin Hc.
    assert (Hh : In h selected) by now apply Hsel.
    now rewrite Hhead in Hh.
  - destruct Hhead as [Hin Hall].
    destruct selected as [|s0 selected0] eqn:E; [destruct Hin|].
    simpl. split.
    + exists y. apply Hsel in Hin as [Hin Hc]. now repeat split.
    + intros h Hh Hc. rewrite List.Forall_forall in Hall.
      apply Hall, Hsel. now split.
Qed.

End StatusFromDate.

End Facts.

(** *** The properties on the history of entity 7, a draft since day 734563 *)

(** Entity 8 is made ready; the history of entity 7 stays. *)
Lemma change_status_leaves_other_entities_witness :
  let rows :=
    [mkStatusHistory 1 7 "draft" None (Some 734563) (Some 876582)
       734563 876582] in
  (primary_key rows /\ 8 <> 7) /\
  status 7 (change_status 876582 734572 8 "ready" None Omitted rows)
  = status 7 rows.
Proof.
  intros rows.
  assert (Hpk : primary_key rows).
  { unfold primary_key. simpl. constructor; [simpl; tauto|constructor]. }
  assert (Hne : 8 <> 7) by lia.
  split; [now split|].
  exact (change_status_leaves_other_entities 876582 734572 7 8 "ready" None
           Omitted rows Hpk Hne).
Defined.

(** Made ready on 10 March 2012, the draft of entity 7 is closed where it
    stands and the new record comes after it. *)
Lemma change_status_keeps_history_witness :
  let rows :=
    [mkStatusHistory 1 7 "draft" None (Some 734563) (Some 876582)
       734563 876582;
     mkStatusHistory 2 8 "draft" None (Some 734563) (Some 876582)
       734563 876582] in
  (primary_key rows /\ date_min < 734572) /\
  exists rows',
    StatusMixin.change_status 876582 734572 7 "ready" None Omitted
      (Some rows) = Ok rows' /\
    length rows' = S (length rows) /\
    (firstn (length rows) rows' = rows \/
     exists before old after,
       rows = before ++ old :: after /\
       status_for old = 7 /\ in_range 734572 old /\
       firstn (length rows) rows'
       = before
         ++ mkStatusHistory (id old) (status_for old) (classified_by old)
              (status_datetime old) (status_from_date old)
              (Some (734572 - 1)) (from_date old) (734572 - 1)
         :: after).
Proof.
  intros rows.
  assert (Hpk : primary_key rows).
  { unfold primary_key. simpl.
    constructor; [simpl; intros [H|[]]; discriminate|].
    constructor; [simpl; tauto|constructor]. }
  assert (Hmin : date_min < 734572) by (unfold date_min; lia).
  split; [now split|].
  destruct (change_status_keeps_history 876582 734572 7 "ready" None Omitted
              rows Hpk) as [Hkept Hreturns].
  destruct (Hreturns Hmin Hmin) as [rows' Hcall].
  exists rows'. split; [exact Hcall|exact (Hkept rows' Hcall)].
Defined.

(** Made ready with the default dates, entity 7, a draft until then, is
    ready today. *)
Lemma current_status_query_after_change_status_witness :
  let rows :=
    [mkStatusHistory 1 7 "draft" None (Some 734563) (Some 876582)
       734563 876582] in
  let call :=
    StatusMixin.change_status 876582 734572 7 "ready" None Omitted
      (Some rows) in
  (Some 876582 = Some 876582 /\ 734572 <= 734572 <= 876582 /\
   date_min < 734572) /\
  exists rows',
    call = Ok rows' /\ current_status_query 734572 7 rows' = Some "ready".
Proof.
  intros rows call.
  assert (Hthru : Some 876582 = Some 876582) by reflexivity.
  assert (Hd : 734572 <= 734572 <= 876582) by lia.
  assert (Hmin : date_min < 734572) by (unfold date_min; lia).
  split; [now repeat split|].
  destruct (current_status_query_after_change_status 876582 734572 7 "ready"
              None Omitted rows 734572 876582 Hthru Hd)
    as [Hquery Hreturns].
  destruct (Hreturns Hmin Hmin) as [rows' Hcall].
  exists rows'. split; [exact Hcall|exact (Hquery rows' Hcall)].
Defined.

Lemma current_status_after_change_status_witness :
  let rows :=
    [mkStatusHistory 1 7 "draft" None (Some 734563) (Some 876582)
       734563 876582] in
  let call :=
    StatusMixin.change_status 876582 734572 7 "ready" None Omitted
      (Some rows) in
  (primary_key rows /\
   Forall (fun h => status_from_date h <> None /\ status_thru_date h <> None)
     (status 7 rows) /\
   non_overlapping (status 7 rows) /\
   Forall (fun h => forall fh, status_from_date h = Some fh -> fh <= 734572)
     (status 7 rows) /\
   Some 876582 = Some 876582 /\ 734572 <= 734572 <= 876582 /\
   date_min < 734572) /\
  exists rows',
    call = Ok rows' /\
    current_status 734572 (status 7 rows') = Ok (Some "ready") /\
    current_status 734572 (status 7 rows')
    = Ok (current_status_query 734572 7 rows').
Proof.
  intros rows call.
  assert (Hpk : primary_key rows).
  { unfold primary_key. simpl. constructor; [simpl; tauto|constructor]. }
  assert (Hnull : Forall (fun h => status_from_date h <> None /\
                                   status_thru_date h <> None)
                    (status 7 rows)).
  { repeat constructor; discriminate. }
  assert (Hno : non_overlapping (status 7 rows)).
  { unfold non_overlapping. simpl. repeat constructor. }
  assert (Hfrom : Forall (fun h => forall fh, status_from_date h = Some fh ->
                                              fh <= 734572) (status 7 rows)).
  { repeat constructor. simpl. intros fh [= <-]. lia. }
  assert (Hthru : Some 876582 = Some 876582) by reflexivity.
  assert (Hd : 734572 <= 734572 <= 876582) by lia.
  assert (Hmin : date_min < 734572) by (unfold date_min; lia).
  split; [now repeat split|].
  destruct (current_status_after_change_status 876582 734572 7 "ready"
              None Omitted rows 734572 876582 Hpk Hnull Hno Hfrom Hthru Hd)
    as [Hstatus Hreturns].
  destruct (Hreturns Hmin Hmin) as [rows' Hcall].
  exists rows'. split; [exact Hcall|exact (Hstatus rows' Hcall)].
Defined.

(** A record without a start date stops the search. *)
Lemma get_status_history_at_raises_on_null_witness :
  let h := mkStatusHistory 1 7 "draft" None None (Some 876582)
             734563 876582 in
  status_from_date h = None /\
  get_status_history_at 734572 [h] None = Raise TypeError_date_None.
Proof.
  intros h.
  assert (Hnull : status_from_date h = None) by reflexivity.
  split; [exact Hnull|].
  exact (get_status_history_at_raises_on_null 734572 [] [] h None
           (List.Forall_nil _) (or_introl Hnull)).
Defined.



End StatusHistoryFacts.

(** ** Cities, contact mechanisms and persons *)

Module ContactFacts.
Import Party PartyFacts.
Local Open Scope Z_scope.

(** *** [City.get_or_create] *)

Lemma City_filter_by_true code' country' g :
  City.filter_by code' country' g = true <->
  GeographicBoundary.row_type g = GeographicBoundary.city country' /\
  GeographicBoundary.code g = code'.
Proof.
  unfold City.filter_by.
  destruct (GeographicBoundary.row_type g) as [|country_id].
  - split; [discriminate|]. now intros [? _].
  - rewrite andb_true_iff, !bool_decide_eq_true. split.
    + now intros [-> ->].
    + now intros [[= ->] ->].
Qed.

(** X9. [City.get_or_create] returns a city of the table with the code and
    the country asked for: a new one, made of the arguments, with a primary
    key no row of the table has (the countries are rows of the same table)
    and added to the table, when no city has that code in that country (a
    country with the code, or a city with it in another country, does not
    count); the existing one, with the table left as it is, otherwise.
    Every later call with the same code and country, whatever countries and
    cities were added in between, returns that same city and adds
    nothing. *)
Theorem City_get_or_create_idempotent (country : Z) (code : option string)
    (name : string) (rows : list GeographicBoundary.t) :
  let city := fst (City.get_or_create country code name rows) in
  let rows1 := snd (City.get_or_create country code name rows) in
  In city rows1 /\
  (GeographicBoundary.row_type city = GeographicBoundary.city country /\
   GeographicBoundary.code city = code) /\
  (Forall (fun g => ~ (GeographicBoundary.row_type g
                       = GeographicBoundary.city country /\
                       GeographicBoundary.code g = code)) rows ->
   city = GeographicBoundary.mk (next_id GeographicBoundary.id rows) code
            name (GeographicBoundary.city country) /\
   Forall (fun g => GeographicBoundary.id g <> GeographicBoundary.id city)
     rows /\
   rows1 = rows ++ [city]) /\
  (Exists (fun g => GeographicBoundary.row_type g
                    = GeographicBoundary.city country /\
                    GeographicBoundary.code g = code) rows ->
   In city rows /\ rows1 = rows) /\
  (forall name' later,
     City.get_or_create country code name' (rows1 ++ later)
     = (city, rows1 ++ later)).
Proof.
  unfold City.get_or_create at 1 2.
  destruct (List.find (City.filter_by code country) rows) as [c|] eqn:Efind;
    simpl.
  - pose proof (find_some_in _ _ _ Efind) as [Hin Hc].
    apply City_filter_by_true in Hc.
    split; [exact Hin|]. split; [exact Hc|]. split; [|split].
    + intros Hall. rewrite List.Forall_forall in Hall.
      now destruct (Hall c Hin).
    + auto.
    + intros name' later. unfold City.get_or_create.
      now rewrite (find_app_found _ _ later _ Efind).
  - split; [apply in_or_app; right; now left|].
    split; [now split|]. split; [|split].
    + intros _. split; [reflexivity|]. split; [|reflexivity].
      apply next_id_fresh.
    + intros Hex. apply find_none_iff in Efind.
      apply List.Exists_exists in Hex as (c & Hin & Hc).
      rewrite List.Forall_forall in Efind. specialize (Efind c Hin).
      apply City_filter_by_true in Hc. congruence.
    + intros name' later. unfold City.get_or_create.
      rewrite (find_app_created _ _ later _ Efind); [reflexivity|].
      now apply City_filter_by_true.
Qed.

(** Belgium and the Netherlands are rows 1 and 2: Brussels, the first
    city, is row 3.  A second call with another name returns it as it is. *)
Lemma City_get_or_create_idempotent_witness :
  let belgium :=
    GeographicBoundary.mk 1 (Some "BE") "Belgium"
      GeographicBoundary.country in
  let netherlands :=
    GeographicBoundary.mk 2 (Some "NL") "Netherlands"
      GeographicBoundary.country in
  let brussels :=
    GeographicBoundary.mk 3 (Some "1000") "Brussels"
      (GeographicBoundary.city 1) in
  let rows := [belgium; netherlands] in
  Forall (fun g => ~ (GeographicBoundary.row_type g
                      = GeographicBoundary.city 1 /\
                      GeographicBoundary.code g = Some "1000")) rows /\
  City.get_or_create 1 (Some "1000") "Brussels" rows
  = (brussels, [belgium; netherlands; brussels]) /\
  City.get_or_create 1 (Some "1000") "Bruxelles"
    [belgium; netherlands; brussels]
  = (brussels, [belgium; netherlands; brussels]).
Proof.
  intros belgium netherlands brussels rows.
  assert (Hnone : Forall (fun g => ~ (GeographicBoundary.row_type g
                                      = GeographicBoundary.city 1 /\
                                      GeographicBoundary.code g
                                      = Some "1000")) rows).
  { repeat constructor; simpl; intros [? ?]; discriminate. }
  split; [exact Hnone|].
  destruct (City_get_or_create_idempotent 1 (Some "1000") "Brussels" rows)
    as (_ & _ & Hcreated & _ & Hlater).
  destruct (Hcreated Hnone) as (Hcity & _ & Hrows).
  assert (Hfirst : City.get_or_create 1 (Some "1000") "Brussels" rows
                   = (brussels, [belgium; netherlands; brussels])).
  { rewrite (surjective_pairing (City.get_or_create _ _ _ rows)).
    rewrite Hrows, Hcity. reflexivity. }
  split; [exact Hfirst|].
  specialize (Hlater "Bruxelles" []).
  rewrite Hfirst, app_nil_r in Hlater. exact Hlater.
Defined.

(** *** Contact mechanisms: the two loops *)

Section ContactMechanisms.

Implicit Types ms : gmap Z (option (string * string)).
Implicit Types pcm x : PartyContactMechanism.
Implicit Types v : option (string * string).

Lemma get_loop_cons ms d x l :
  _get_contact_mechanism_loop ms d (x :: l)
  = if is_kind ms d x then mechanism_of ms x
    else _get_contact_mechanism_loop ms d l.
Proof.
  simpl. unfold is_kind. destruct (mechanism_of ms x) as [m|]; [|reflexivity].
  now destruct (bool_decide (m.1 = d)).
Qed.

Lemma get_loop_skip ms d mid l :
  Forall (fun x => is_kind ms d x = false) mid ->
  _get_contact_mechanism_loop ms d (mid ++ l)
  = _get_contact_mechanism_loop ms d l.
Proof.
  induction 1 as [|x mid Hx _ IH]; [reflexivity|].
  rewrite <- app_comm_cons, get_loop_cons, Hx. exact IH.
Qed.

Lemma get_loop_none ms d l :
  Forall (fun x => is_kind ms d x = false) l ->
  _get_contact_mechanism_loop ms d l = None.
Proof.
  intros Hall. rewrite <- (app_nil_r l). now rewrite get_loop_skip.
Qed.

Lemma get_loop_ext ms ms' d l :
  Forall (fun x => is_kind ms' d x = is_kind ms d x /\
                   (is_kind ms d x = true ->
                    mechanism_of ms' x = mechanism_of ms x)) l ->
  _get_contact_mechanism_loop ms' d l = _get_contact_mechanism_loop ms d l.
Proof.
  induction 1 as [|x l [Hk Hm] _ IH]; [reflexivity|].
  rewrite !get_loop_cons, Hk. destruct (is_kind ms d x); auto.
Qed.

Lemma get_loop_found ms d l m :
  _get_contact_mechanism_loop ms d l = Some m ->
  exists pcm, In pcm l /\ mechanism_of ms pcm = Some m /\ m.1 = d.
Proof.
  induction l as [|x l IH]; [discriminate|].
  rewrite get_loop_cons. unfold is_kind.
  destruct (mechanism_of ms x) as [m0|] eqn:Em.
  - destruct (bool_decide (m0.1 = d)) eqn:Ek.
    + intros [= <-]. exists x. apply bool_decide_eq_true in Ek.
      split; [now left|now split].
    + intros Hl. destruct (IH Hl) as (pcm & Hin & Hm).
      exists pcm. split; [now right|exact Hm].
  - intros Hl. destruct (IH Hl) as (pcm & Hin & Hm).
    exists pcm. split; [now right|exact Hm].
Qed.

Lemma mechanism_of_insert_ne ms cm v x :
  contact_mechanism x <> Some cm ->
  mechanism_of (<[cm := v]> ms) x = mechanism_of ms x.
Proof.
  intros Hne. unfold mechanism_of.
  destruct (contact_mechanism x) as [c|]; [|reflexivity].
  rewrite lookup_insert_ne; [reflexivity|congruence].
Qed.

Lemma mechanism_of_insert_eq ms cm m x :
  contact_mechanism x = Some cm ->
  mechanism_of (<[cm := Some m]> ms) x = Some m.
Proof.
  intros Hcm. unfold mechanism_of. now rewrite Hcm, lookup_insert_eq.
Qed.

Lemma mechanism_of_same ms cm x pcm :
  contact_mechanism x = Some cm -> contact_mechanism pcm = Some cm ->
  mechanism_of ms x = mechanism_of ms pcm.
Proof. intros Hx Hp. unfold mechanism_of. now rewrite Hx, Hp. Qed.

Lemma is_kind_false_insert ms d cm v x pcm m :
  contact_mechanism pcm = Some cm -> mechanism_of ms pcm = Some m ->
  m.1 = d -> is_kind ms d x = false ->
  is_kind (<[cm := v]> ms) d x = false.
Proof.
  intros Hp Hm Hd Hx.
  destruct (decide (contact_mechanism x = Some cm)) as [Hcm|Hcm].
  - exfalso. unfold is_kind in Hx.
    rewrite (mechanism_of_same ms cm x pcm Hcm Hp), Hm in Hx.
    now rewrite bool_decide_eq_true_2 in Hx.
  - unfold is_kind. now rewrite mechanism_of_insert_ne.
Qed.

(** What [_set_contact_mechanism_loop] does: nothing when no party contact
    mechanism is of the kind, and otherwise it returns at the first one
    that is. *)
Lemma set_loop_cases (self : PartyState) d v : forall rest skipped,
  match _set_contact_mechanism_loop self d v skipped rest with
  | None => Forall (fun x => is_kind (mechanisms self) d x = false) rest
  | Some r =>
      exists mid pcm tail m cm,
        rest = mid ++ pcm :: tail /\
        Forall (fun x => is_kind (mechanisms self) d x = false) mid /\
        mechanism_of (mechanisms self) pcm = Some m /\
        contact_mechanism pcm = Some cm /\ m.1 = d /\
        r = if has_address v then
              Ok (mkPartyState (party_contact_mechanisms self)
                    (<[cm := v]> (mechanisms self)) (party_session self))
            else if has_id pcm then
              match party_session self with
              | Some session =>
                  Ok (mkPartyState ((skipped ++ mid) ++ tail)
                        (mechanisms self)
                        (Some (Session_delete (pcm_ident pcm) session)))
              | None => Raise AttributeError_None
              end
            else
              Ok (mkPartyState ((skipped ++ mid) ++ tail) (mechanisms self)
                    (party_session self))
  end.
Proof.
  induction rest as [|x rest IH]; intros skipped; simpl; [constructor|].
  assert (Hcontinue :
    is_kind (mechanisms self) d x = false ->
    match _set_contact_mechanism_loop self d v (skipped ++ [x]) rest with
    | None => Forall (fun x => is_kind (mechanisms self) d x = false)
                (x :: rest)
    | Some r =>
        exists mid pcm tail m cm,
          x :: rest = mid ++ pcm :: tail /\
          Forall (fun x => is_kind (mechanisms self) d x = false) mid /\
          mechanism_of (mechanisms self) pcm = Some m /\
          contact_mechanism pcm = Some cm /\ m.1 = d /\
          r = if has_address v then
                Ok (mkPartyState (party_contact_mechanisms self)
                      (<[cm := v]> (mechanisms self)) (party_session self))
              else if has_id pcm then
                match party_session self with
                | Some session =>
                    Ok (mkPartyState ((skipped ++ mid) ++ tail)
                          (mechanisms self)
                          (Some (Session_delete (pcm_ident pcm) session)))
                | None => Raise AttributeError_None
                end
              else
                Ok (mkPartyState ((skipped ++ mid) ++ tail) (mechanisms self)
                      (party_session self))
    end).
  { intros Hx. specialize (IH (skipped ++ [x])).
    destruct (_set_contact_mechanism_loop self d v (skipped ++ [x]) rest).
    - destruct IH as (mid & pcm & tail & m & cm & -> & Hmid & Hm & Hcm & Hd
                      & ->).
      exists (x :: mid), pcm, tail, m, cm.
      split; [reflexivity|]. split; [now constructor|].
      split; [exact Hm|]. split; [exact Hcm|]. split; [exact Hd|].
      now rewrite <- !(app_assoc skipped [x] mid).
    - now constructor. }
  destruct (mechanism_of (mechanisms self) x) as [m|] eqn:Em.
  - destruct (contact_mechanism x) as [cm|] eqn:Ecm.
    + destruct (bool_decide (m.1 = d)) eqn:Ek.
      * apply bool_decide_eq_true in Ek.
        destruct (has_address v);
          [|destruct (has_id x) eqn:Hid; [destruct (party_session self)|]];
          exists [], x, rest, m, cm; rewrite ?app_nil_r, ?Hid;
          (split; [reflexivity|]); (split; [apply List.Forall_nil|]);
          (split; [exact Em|]); (split; [exact Ecm|]);
          (split; [exact Ek|]); reflexivity.
      * apply Hcontinue. unfold is_kind. now rewrite Em.
    + unfold mechanism_of in Em. now rewrite Ecm in Em.
  - apply Hcontinue. unfold is_kind. now rewrite Em.
Qed.

Lemma has_address_kind (d address : string) :
  address <> "" -> has_address (Some (d, address)) = true.
Proof.
  intros Hne. simpl. apply negb_true_iff. now apply String.eqb_neq.
Qed.

Lemma referred_identity (self : PartyState) x c :
  In x (party_contact_mechanisms self) -> contact_mechanism x = Some c ->
  c ∈ identities self.
Proof.
  intros Hin Hc. unfold identities.
  apply elem_of_union_l, elem_of_union_l, elem_of_union_r.
  apply elem_of_list_to_set, list_elem_of_omap.
  exists x. split; [now apply list_elem_of_In|exact Hc].
Qed.

Lemma mechanism_of_fresh (self : PartyState) v x :
  In x (party_contact_mechanisms self) ->
  mechanism_of (<[fresh (identities self) := v]> (mechanisms self)) x
  = mechanism_of (mechanisms self) x.
Proof.
  intros Hin. apply mechanism_of_insert_ne. intros Hc.
  apply (is_fresh (identities self)).
  now apply (referred_identity self x).
Qed.


(** X10. Setting a contact mechanism of a kind (the e-mail, the phone or
    the fax of a party) to a virtual address of that kind with an address
    that is not empty never fails, and reading the kind afterwards gives
    that virtual address: whether the party had one of the kind, which is
    then overwritten, or none, in which case one is created. *)
Theorem set_contact_mechanism_then_get (self : PartyState)
    (described_by address : string) :
  address <> "" ->
  exists self',
    _set_contact_mechanism self described_by (Some (described_by, address))
    = Ok self' /\
    _get_contact_mechanism self' described_by = Some (described_by, address).
Proof.
  revert described_by address. intros d address Hne.
  unfold _set_contact_mechanism.
  pose proof (set_loop_cases self d (Some (d, address))
                (party_contact_mechanisms self) []) as Hcases.
  rewrite (has_address_kind d address Hne) in *.
  destruct (_set_contact_mechanism_loop self d (Some (d, address)) []
              (party_contact_mechanisms self)) as [r|].
  - destruct Hcases as (mid & pcm & tail & m & cm & Hrest & Hmid & Hm & Hcm
                        & Hd & ->).
    eexists. split; [reflexivity|].
    unfold _get_contact_mechanism. simpl. rewrite Hrest, get_loop_skip.
    + rewrite get_loop_cons. unfold is_kind.
      rewrite (mechanism_of_insert_eq _ cm (d, address) pcm Hcm).
      now rewrite bool_decide_eq_true_2.
    + eapply List.Forall_impl; [|exact Hmid]. simpl. intros x Hx.
      now apply (is_kind_false_insert _ d cm _ x pcm m).
  - eexists. split; [reflexivity|].
    unfold _get_contact_mechanism. simpl. rewrite get_loop_skip.
    + rewrite get_loop_cons. unfold is_kind.
      rewrite (mechanism_of_insert_eq _ (fresh (identities self)) (d, address))
        by reflexivity.
      now rewrite bool_decide_eq_true_2.
    + apply List.Forall_forall. intros x Hin.
      rewrite List.Forall_forall in Hcases. specialize (Hcases x Hin).
      unfold is_kind in *. now rewrite mechanism_of_fresh.
Qed.

Lemma filter_none {A : Type} (f : A -> bool) (l : list A) :
  Forall (fun y => f y = false) l -> List.filter f l = [].
Proof.
  induction 1 as [|y l Hy _ IH]; simpl; [reflexivity|]. now rewrite Hy.
Qed.

Lemma filter_all {A : Type} (f : A -> bool) (l : list A) :
  Forall (fun y => f y = false) l ->
  List.filter (fun y => negb (f y)) l = l.
Proof.
  induction 1 as [|y l Hy _ IH]; simpl; [reflexivity|].
  now rewrite Hy, IH.
Qed.

(** X11. Setting a kind to [None] or to an empty address removes the first
    party contact mechanism of that kind from the party, and only that
    one: the other party contact mechanisms stay, no mechanism is changed,
    and a second contact mechanism of the kind, if the party has one, is
    what the kind reads as afterwards.  When the removed one has a primary
    key it is marked for deletion in the session; this needs the session to
    be there. *)
Theorem clear_contact_mechanism_removes_first (self : PartyState)
    (described_by : string) (v : option (string * string)) :
  has_address v = false ->
  is_Some (party_session self) ->
  exists self',
    _set_contact_mechanism self described_by v = Ok self' /\
    mechanisms self' = mechanisms self /\
    List.filter (is_kind (mechanisms self) described_by)
      (party_contact_mechanisms self')
    = tl (List.filter (is_kind (mechanisms self) described_by)
            (party_contact_mechanisms self)) /\
    List.filter (fun x => negb (is_kind (mechanisms self) described_by x))
      (party_contact_mechanisms self')
    = List.filter (fun x => negb (is_kind (mechanisms self) described_by x))
        (party_contact_mechanisms self) /\
    _get_contact_mechanism self' described_by
    = match tl (List.filter (is_kind (mechanisms self) described_by)
                  (party_contact_mechanisms self)) with
      | x :: _ => mechanism_of (mechanisms self) x
      | [] => None
      end.
Proof.
  intros Hv [session Hsession]. unfold _set_contact_mechanism.
  pose proof (set_loop_cases self described_by v
                (party_contact_mechanisms self) []) as Hcases.
  rewrite Hv, Hsession in *.
  destruct (_set_contact_mechanism_loop self described_by v []
              (party_contact_mechanisms self)) as [r|].
  - destruct Hcases as (mid & pcm & tail & m & cm & Hrest & Hmid & Hm & Hcm
                        & Hd & ->).
    assert (Hkind : is_kind (mechanisms self) described_by pcm = true).
    { unfold is_kind. rewrite Hm. now apply bool_decide_eq_true. }
    assert (Hshape :
      List.filter (is_kind (mechanisms self) described_by) (mid ++ tail)
      = tl (List.filter (is_kind (mechanisms self) described_by)
              (mid ++ pcm :: tail)) /\
      List.filter (fun x => negb (is_kind (mechanisms self) described_by x))
        (mid ++ tail)
      = List.filter
          (fun x => negb (is_kind (mechanisms self) described_by x))
          (mid ++ pcm :: tail)).
    { rewrite !List.filter_app. simpl. rewrite Hkind. simpl.
      now rewrite (filter_none _ mid Hmid). }
    destruct Hshape as [Hfirst Hothers]. rewrite Hrest.
    assert (Hget :
      _get_contact_mechanism_loop (mechanisms self) described_by (mid ++ tail)
      = match tl (List.filter (is_kind (mechanisms self) described_by)
                    (mid ++ pcm :: tail)) with
        | x :: _ => mechanism_of (mechanisms self) x
        | [] => None
        end).
    { rewrite <- Hfirst, get_loop_skip by exact Hmid.
      rewrite List.filter_app, (filter_none _ mid Hmid). simpl.
      clear. induction tail as [|x tail IH]; [reflexivity|].
      rewrite get_loop_cons. simpl.
      now destruct (is_kind (mechanisms self) described_by x). }
    destruct (has_id pcm); eexists; (split; [reflexivity|]); simpl;
      repeat split; auto.
  - exists self. split; [reflexivity|]. split; [reflexivity|].
    rewrite (filter_none _ _ Hcases). simpl. repeat split.
    unfold _get_contact_mechanism. now apply get_loop_none.
Qed.

(** X12. Setting one kind leaves what every other kind reads as alone, as
    long as the value that is set is of the kind it is set for, or
    empty. *)
Theorem set_contact_mechanism_leaves_other_kinds (self self' : PartyState)
    (described_by other : string) (v : option (string * string)) :
  other <> described_by ->
  (has_address v = true -> exists address, v = Some (described_by, address)) ->
  _set_contact_mechanism self described_by v = Ok self' ->
  _get_contact_mechanism self' other = _get_contact_mechanism self other.
Proof.
  intros Hne Hv. unfold _set_contact_mechanism.
  pose proof (set_loop_cases self described_by v
                (party_contact_mechanisms self) []) as Hcases.
  destruct (_set_contact_mechanism_loop self described_by v []
              (party_contact_mechanisms self)) as [r|].
  - destruct Hcases as (mid & pcm & tail & m & cm & Hrest & Hmid & Hm & Hcm
                        & Hd & ->).
    assert (Hpcm : is_kind (mechanisms self) other pcm = false).
    { unfold is_kind. rewrite Hm. apply bool_decide_eq_false. congruence. }
    assert (Hremoved :
      _get_contact_mechanism_loop (mechanisms self) other (mid ++ tail)
      = _get_contact_mechanism_loop (mechanisms self) other
          (mid ++ pcm :: tail)).
    { clear -Hpcm. induction mid as [|x mid IH]; simpl app.
      - now rewrite get_loop_cons, Hpcm.
      - now rewrite !get_loop_cons, IH. }
    unfold _get_contact_mechanism. rewrite Hrest.
    destruct (has_address v) eqn:Ha.
    + destruct (Hv eq_refl) as (address & ->). intros [= <-]. simpl.
      apply get_loop_ext. apply List.Forall_forall. intros x _.
      destruct (decide (contact_mechanism x = Some cm)) as [Hx|Hx].
      * assert (Hold : is_kind (mechanisms self) other x = false).
        { unfold is_kind.
          rewrite (mechanism_of_same _ cm x pcm Hx Hcm), Hm.
          apply bool_decide_eq_false. congruence. }
        rewrite Hold. split; [|discriminate]. unfold is_kind.
        rewrite (mechanism_of_insert_eq _ cm _ x Hx).
        apply bool_decide_eq_false. simpl. congruence.
      * unfold is_kind. now rewrite mechanism_of_insert_ne.
    + destruct (has_id pcm); [destruct (party_session self)|];
        try discriminate; intros [= <-]; exact Hremoved.
  - destruct (has_address v) eqn:Ha; [|now intros [= <-]].
    destruct (Hv eq_refl) as (address & ->). intros [= <-].
    unfold _get_contact_mechanism. simpl.
    assert (Hold : forall l,
      (forall x, In x l -> In x (party_contact_mechanisms self)) ->
      _get_contact_mechanism_loop
        (<[fresh (identities self) := Some (described_by, address)]>
           (mechanisms self)) other
        (l ++ [mkPartyContactMechanism
                 (fresh ({[fresh (identities self)]} ∪ identities self)) None
                 (Some (fresh (identities self)))])
      = _get_contact_mechanism_loop (mechanisms self) other l).
    { induction l as [|x l IH]; intros Hl.
      - simpl app. rewrite get_loop_cons. unfold is_kind.
        rewrite (mechanism_of_insert_eq _ (fresh (identities self))
                   (described_by, address)) by reflexivity.
        rewrite bool_decide_eq_false_2; [reflexivity|simpl; congruence].
      - rewrite <- app_comm_cons, !get_loop_cons. unfold is_kind.
        rewrite mechanism_of_fresh by (apply Hl; now left).
        rewrite IH; [reflexivity|]. intros y Hy. apply Hl. now right. }
    now apply Hold.
Qed.

(** *** [PartyContactMechanism.mechanism] *)

(** X13. Setting the [mechanism] of a party contact mechanism to a value
    that is not [None] makes it read as that value, and with it every party
    contact mechanism that shares the contact mechanism object; setting
    it to [None] changes nothing. *)
Theorem mechanism_setter_then_getter (self : PartyContactMechanism)
    (ms : gmap Z (option (string * string))) (m : string * string) :
  let self' := fst (mechanism_setter self (Some m) ms) in
  let ms' := snd (mechanism_setter self (Some m) ms) in
  mechanism self' ms' = Some m /\
  (forall other, is_Some (contact_mechanism self) ->
     contact_mechanism other = contact_mechanism self ->
     mechanism other ms' = Some m) /\
  mechanism_setter self None ms = (self, ms).
Proof.
  unfold mechanism_setter, mechanism.
  destruct (contact_mechanism self) as [cm|] eqn:Ecm; simpl.
  - rewrite Ecm, lookup_insert_eq. repeat split.
    intros other _ ->. now rewrite lookup_insert_eq.
  - rewrite lookup_insert_eq. repeat split. now intros other [cm Hcm].
Qed.

(** *** [PartyCategory.get_contact_mechanisms] *)

(** X14. The addresses of a kind that a category yields are those of the
    mechanisms of that kind of the party contact mechanisms of its
    parties; what a party of the category reads as its contact mechanism of
    the kind is among them. *)
Theorem get_contact_mechanisms_complete
    (ms : gmap Z (option (string * string)))
    (parties : list (list PartyContactMechanism))
    (virtual_address_type : string) :
  (forall address,
     In address (get_contact_mechanisms ms parties virtual_address_type) <->
     exists party pcm,
       In party parties /\ In pcm party /\
       mechanism_of ms pcm = Some (virtual_address_type, address)) /\
  (forall party session m,
     In party parties ->
     _get_contact_mechanism (mkPartyState party ms session)
       virtual_address_type = Some m ->
     In m.2 (get_contact_mechanisms ms parties virtual_address_type)).
Proof.
  assert (Hmem : forall address,
     In address (get_contact_mechanisms ms parties virtual_address_type) <->
     exists party pcm,
       In party parties /\ In pcm party /\
       mechanism_of ms pcm = Some (virtual_address_type, address)).
  { intros address. unfold get_contact_mechanisms. rewrite in_flat_map.
    split.
    - intros (party & Hparty & Hin). apply in_flat_map in Hin as (pcm & Hpcm & Hin).
      exists party, pcm. split; [exact Hparty|]. split; [exact Hpcm|].
      destruct (mechanism_of ms pcm) as [[kind a]|]; [|destruct Hin].
      simpl in Hin. destruct (bool_decide (kind = virtual_address_type)) eqn:Ek;
        [|destruct Hin].
      apply bool_decide_eq_true in Ek. destruct Hin as [<-|[]]. now subst.
    - intros (party & pcm & Hparty & Hpcm & Hm).
      exists party. split; [exact Hparty|]. apply in_flat_map.
      exists pcm. split; [exact Hpcm|]. rewrite Hm. simpl.
      rewrite bool_decide_eq_true_2 by reflexivity. now left. }
  split; [exact Hmem|].
  intros party session m Hparty Hget. unfold _get_contact_mechanism in Hget.
  simpl in Hget. apply get_loop_found in Hget as (pcm & Hpcm & Hm & Hkind).
  apply Hmem. exists party, pcm. split; [exact Hparty|].
  split; [exact Hpcm|]. rewrite Hm. destruct m as [kind a]. simpl in *.
  now subst.
Qed.

(** *** [Person.note] *)

(** X17. The note of a person warns of a namesake exactly when the table
    holds another person, one that is not the person itself, with the same
    first name and the same last name. *)
Theorem note_warns_of_namesake (self : Person.t) (rows : list Person.t) :
  (Person.note self rows = Some Person.same_name_exists <->
   exists person, In person rows /\
     Person.first_name person = Person.first_name self /\
     Person.last_name person = Person.last_name self /\
     Person.ident person <> Person.ident self) /\
  (Person.note self rows = None \/
   Person.note self rows = Some Person.same_name_exists).
Proof.
  unfold Person.note.
  set (named := List.filter _ rows).
  assert (Hnamed : forall person, In person named <->
            In person rows /\
            Person.first_name person = Person.first_name self /\
            Person.last_name person = Person.last_name self).
  { intros person. unfold named.
    rewrite List.filter_In, andb_true_iff, !bool_decide_eq_true. tauto. }
  assert (Hloop : forall l,
            (Person.note_loop self l = Some Person.same_name_exists <->
             exists person, In person l /\
                            Person.ident person <> Person.ident self) /\
            (Person.note_loop self l = None \/
             Person.note_loop self l = Some Person.same_name_exists)).
  { induction l as [|p l [IH1 IH2]]; simpl.
    - split; [|now left]. split; [discriminate|]. now intros (person & [] & _).
    - destruct (bool_decide (Person.ident p <> Person.ident self)) eqn:Ep.
      + apply bool_decide_eq_true in Ep. split; [|now right].
        split; [|reflexivity]. intros _. exists p. split; [now left|exact Ep].
      + apply bool_decide_eq_false in Ep. split; [|exact IH2].
        rewrite IH1. split.
        * intros (person & Hin & Hne). exists person. split; [now right|auto].
        * intros (person & [->|Hin] & Hne); [contradiction|].
          now exists person. }
  destruct (Hloop named) as [H1 H2]. split; [|exact H2].
  rewrite H1. split.
  - intros (person & Hin & Hne). apply Hnamed in Hin as (Hin & Hf & Hl).
    now exists person.
  - intros (person & Hin & Hf & Hl & Hne). exists person.
    split; [now apply Hnamed|exact Hne].
Qed.

End ContactMechanisms.

(** *** The properties on a party without contact mechanisms, and on one
    with an e-mail address *)

(** A first e-mail address for a party that has none. *)
Lemma set_contact_mechanism_then_get_witness :
  "info@example.com" <> "" /\
  exists self',
    _set_contact_mechanism (mkPartyState [] ∅ None) "email"
      (Some ("email", "info@example.com")) = Ok self' /\
    _get_contact_mechanism self' "email" = Some ("email", "info@example.com").
Proof.
  assert (Hne : "info@example.com" <> "") by discriminate.
  split; [exact Hne|].
  exact (set_contact_mechanism_then_get (mkPartyState [] ∅ None) "email"
           "info@example.com" Hne).
Defined.

(** The only e-mail address of a party is cleared. *)
Lemma clear_contact_mechanism_removes_first_witness :
  let self :=
    mkPartyState [mkPartyContactMechanism 10 (Some 1) (Some 20)]
      {[20 := Some ("email", "info@example.com")]}
      (Some (mkSession {[10; 20]} ∅)) in
  (has_address None = false /\ is_Some (party_session self)) /\
  exists self',
    _set_contact_mechanism self "email" None = Ok self' /\
    mechanisms self' = mechanisms self.
Proof.
  intros self.
  assert (Hv : has_address None = false) by reflexivity.
  assert (Hs : is_Some (party_session self)) by (eexists; reflexivity).
  split; [now split|].
  destruct (clear_contact_mechanism_removes_first self "email" None Hv Hs)
    as (self' & Hset & Hms & _).
  exists self'. now split.
Defined.

(** A party with an e-mail address and a phone number gets another e-mail
    address: the phone number is what it was. *)
Lemma set_contact_mechanism_leaves_other_kinds_witness :
  let email := mkPartyContactMechanism 10 (Some 1) (Some 20) in
  let phone := mkPartyContactMechanism 11 (Some 2) (Some 21) in
  let session := Some (mkSession {[10; 11; 20; 21]} ∅) in
  let self :=
    mkPartyState [email; phone]
      (<[20 := Some ("email", "info@example.com")]>
         {[21 := Some ("phone", "+32 2 555 01 23")]})
      session in
  let self' :=
    mkPartyState [email; phone]
      (<[20 := Some ("email", "sales@example.com")]> (mechanisms self))
      session in
  ("phone" <> "email" /\
   (has_address (Some ("email", "sales@example.com")) = true ->
    exists address : string,
      Some ("email", "sales@example.com") = Some ("email", address)) /\
   _set_contact_mechanism self "email" (Some ("email", "sales@example.com"))
   = Ok self') /\
  _get_contact_mechanism self "email" = Some ("email", "info@example.com") /\
  _get_contact_mechanism self' "email" = Some ("email", "sales@example.com") /\
  _get_contact_mechanism self "phone" = Some ("phone", "+32 2 555 01 23") /\
  _get_contact_mechanism self' "phone" = _get_contact_mechanism self "phone".
Proof.
  intros email phone session self self'.
  assert (Hne : "phone" <> "email") by discriminate.
  assert (Hv : has_address (Some ("email", "sales@example.com")) = true ->
               exists address : string,
                 Some ("email", "sales@example.com") = Some ("email", address))
    by (intros _; now exists "sales@example.com").
  assert (Hset : _set_contact_mechanism self "email"
                   (Some ("email", "sales@example.com")) = Ok self').
  { unfold _set_contact_mechanism, self. simpl.
    unfold mechanism_of. simpl. rewrite lookup_insert_eq. reflexivity. }
  assert (Hemail : _get_contact_mechanism self "email"
                   = Some ("email", "info@example.com")).
  { unfold _get_contact_mechanism, self. simpl.
    unfold mechanism_of. simpl. rewrite lookup_insert_eq. reflexivity. }
  assert (Hemail' : _get_contact_mechanism self' "email"
                    = Some ("email", "sales@example.com")).
  { unfold _get_contact_mechanism, self'. simpl.
    unfold mechanism_of. simpl. rewrite lookup_insert_eq. reflexivity. }
  assert (Hphone : _get_contact_mechanism self "phone"
                   = Some ("phone", "+32 2 555 01 23")).
  { unfold _get_contact_mechanism, self. simpl.
    unfold mechanism_of. simpl. rewrite lookup_insert_eq. simpl.
    rewrite lookup_insert_ne by discriminate.
    rewrite lookup_singleton_eq. reflexivity. }
  split; [now repeat split|].
  split; [exact Hemail|]. split; [exact Hemail'|]. split; [exact Hphone|].
  exact (set_contact_mechanism_leaves_other_kinds self self' "email" "phone"
           (Some ("email", "sales@example.com")) Hne Hv Hset).
Defined.

(** *** [PartyAdmin.flush] of a party that stays *)

Lemma flush_loop_kept (cms : list (Z * Z)) : forall objects session,
  flush_loop false cms objects session
  = (objects ++ flat_map (fun pc => [pc.1; pc.2]) cms, session).
Proof.
  induction cms as [|[pcm cm] cms IH]; intros objects session; simpl.
  - now rewrite app_nil_r.
  - rewrite IH. now rewrite <- app_assoc.
Qed.

(** X23. [PartyAdmin.flush] of a party that is not marked deleted marks
    nothing for deletion, and writes out the party, its party contact
    mechanisms and their contact mechanisms: each of them that is not
    itself marked deleted has a row afterwards.  Without a session, nothing
    is done. *)
Theorem flush_writes_contact_mechanisms (session : Session)
    (party : PartyObject) :
  party_ident party ∉ deleted session ->
  (exists session',
     flush (Some session) party = Some session' /\
     deleted session' ⊆ deleted session /\
     party_ident party ∈ persistent session' /\
     forall pcm cm, In (pcm, cm) (contact_mechanisms party) ->
       (pcm ∉ deleted session -> pcm ∈ persistent session') /\
       (cm ∉ deleted session -> cm ∈ persistent session')) /\
  flush None party = None.
Proof.
  intros Hkept. split; [|reflexivity]. unfold flush.
  rewrite bool_decide_eq_false_2 by assumption. rewrite flush_loop_kept.
  eexists. split; [reflexivity|]. simpl.
  assert (Hwritten : forall x,
    In x (party_ident party
          :: flat_map (fun pc => [pc.1; pc.2]) (contact_mechanisms party)) ->
    x ∉ deleted session ->
    x ∈ (persistent session
         ∪ list_to_set
             (party_ident party
              :: flat_map (fun pc => [pc.1; pc.2]) (contact_mechanisms party)))
        ∖ (deleted session
           ∩ list_to_set
               (party_ident party
                :: flat_map (fun pc => [pc.1; pc.2])
                     (contact_mechanisms party)))).
  { intros x Hin Hx. apply elem_of_difference. split.
    - apply elem_of_union_r, elem_of_list_to_set. now apply list_elem_of_In.
    - intros Hd. apply elem_of_intersection in Hd as [Hd _]. contradiction. }
  split; [|split].
  - intros x Hx. now apply elem_of_difference in Hx as [Hx _].
  - apply Hwritten; [now left|exact Hkept].
  - intros pcm cm Hin. split; apply Hwritten; right; apply in_flat_map;
      exists (pcm, cm); (split; [exact Hin|]); simpl; auto.
Qed.

(** Party 3 with one contact mechanism, none of them deleted. *)
Lemma flush_writes_contact_mechanisms_witness :
  (3 ∉ deleted (mkSession {[3]} ∅)) /\
  exists session',
    flush (Some (mkSession {[3]} ∅)) (mkParty 3 [(4, 5)]) = Some session' /\
    (3 ∈ persistent session') /\ (4 ∈ persistent session').
Proof.
  assert (Hkept : 3 ∉ deleted (mkSession {[3]} ∅)).
  { simpl. apply not_elem_of_empty. }
  split; [exact Hkept|].
  destruct (proj1 (flush_writes_contact_mechanisms (mkSession {[3]} ∅)
                     (mkParty 3 [(4, 5)]) Hkept))
    as (session' & Heq & _ & Hparty & Hcms).
  exists session'. split; [exact Heq|]. split; [exact Hparty|].
  apply (Hcms 4 5); [now left|]. simpl. apply not_elem_of_empty.
Defined.

End ContactFacts.

(** ** The virtual attributes of a party address, written and read *)

Module PartyAddressFacts.
Import Party PartyFacts.
Local Open Scope Z_scope.

Section GetAttr.

Variable Address_default : string -> option value.

Lemma getattr_insert_eq (self : gmap string value) k v :
  getattr (<[k := v]> self) k = v.
Proof. unfold getattr. now rewrite lookup_insert_eq. Qed.

Lemma getattr_insert_ne (self : gmap string value) k k' v :
  k <> k' -> getattr (<[k := v]> self) k' = getattr self k'.
Proof. intros Hne. unfold getattr. now rewrite lookup_insert_ne. Qed.

(** Without an [Address], and with street or city still missing, the value
    is only kept in the hidden attribute. *)
Lemma setattr_stores_hidden (self : gmap string value) (rest : string)
    (v : value) (addresses : gmap Z (gmap string value)) :
  getattr self "address" = VNone ->
  let self1 := <[String.append "_address_" rest := v]> self in
  getattr self1 "_address_street1" = VNone \/
  getattr self1 "_address_city" = VNone ->
  __setattr__ self (String.append "address_" rest) v addresses
  = Ok (self1, addresses).
Proof.
  intros Ha self1 Hmissing. unfold __setattr__.
  destruct (address_attribute_rest rest) as [-> ->]. fold self1.
  unfold self1 at 1. rewrite getattr_address_hidden, Ha. simpl.
  destruct Hmissing as [-> | ->].
  - now rewrite bool_decide_eq_false_2 by (intros H; now apply H).
  - rewrite (bool_decide_eq_false_2 (VNone <> VNone))
      by (intros H; now apply H).
    now rewrite andb_false_r.
Qed.

(** X15. A virtual attribute [address_<x>] that has just been assigned
    reads as the value assigned: with an [Address] attached; without one,
    for the street and the city; and without one for any other attribute
    as long as the assignment does not create the [Address] (street or city
    is still missing). *)
Theorem setattr_then_getattr (self : gmap string value) (rest : string)
    (v : value) (addresses : gmap Z (gmap string value)) :
  (exists a, getattr self "address" = VEntity a /\ is_Some (addresses !! a))
  \/
  (getattr self "address" = VNone /\
   (rest = "street1" \/ rest = "city" \/
    getattr (<[String.append "_address_" rest := v]> self) "_address_street1"
    = VNone \/
    getattr (<[String.append "_address_" rest := v]> self) "_address_city"
    = VNone)) ->
  exists self' addresses',
    __setattr__ self (String.append "address_" rest) v addresses
    = Ok (self', addresses') /\
    __getattr__ Address_default self' (String.append "address_" rest)
      addresses' = Ok v.
Proof.
  set (self1 := <[String.append "_address_" rest := v]> self).
  assert (Hread : forall self' addresses',
    __getattr__ Address_default self' (String.append "address_" rest)
      addresses'
    = if truthy (getattr self' "address") then
        match getattr self' "address" with
        | VEntity a =>
            match default ∅ (addresses' !! a) !! rest with
            | Some v => Ok v
            | None =>
                match Address_default rest with
                | Some v => Ok v
                | None => Raise AttributeError_missing
                end
            end
        | _ => Raise AttributeError_unicode
        end
      else
        match self' !! String.append "_address_" rest with
        | Some v => Ok v
        | None => Raise AttributeError_missing
        end).
  { intros self' addresses'. unfold __getattr__.
    now destruct (address_attribute_rest rest) as [-> ->]. }
  assert (Hhidden : __getattr__ Address_default self1
                      (String.append "address_" rest) addresses = Ok v
                    \/ getattr self "address" <> VNone).
  { destruct (decide (getattr self "address" = VNone)) as [Ha|Ha];
      [left|now right].
    rewrite Hread. unfold self1.
    now rewrite getattr_address_hidden, Ha, lookup_insert_eq. }
  intros [(a & Ha & [d Hd])|[Ha Hcases]].
  - rewrite (setattr_writes_through self rest v addresses a Ha).
    eexists _, _. split; [reflexivity|]. rewrite Hread.
    rewrite getattr_address_hidden, Ha. simpl.
    rewrite lookup_alter, decide_True, Hd by reflexivity. simpl.
    now rewrite lookup_insert_eq.
  - destruct Hhidden as [Hhidden|Hno]; [|contradiction].
    destruct (decide (getattr self1 "_address_street1" = VNone)) as [Hs|Hs].
    { eexists _, _. split; [|exact Hhidden].
      apply setattr_stores_hidden; [exact Ha|now left]. }
    destruct (decide (getattr self1 "_address_city" = VNone)) as [Hc|Hc].
    { eexists _, _. split; [|exact Hhidden].
      apply setattr_stores_hidden; [exact Ha|now right]. }
    destruct (setattr_creates self rest v addresses Ha Hs Hc) as [_ Heq].
    eexists _, _. split; [exact Heq|]. rewrite Hread.
    rewrite getattr_insert_eq. simpl. rewrite lookup_insert_eq. simpl.
    fold self1.
    destruct Hcases as [-> | [-> | [Hs'|Hc']]]; try contradiction.
    + rewrite lookup_insert_eq. unfold self1.
      now rewrite (getattr_insert_eq self (String.append "_address_" "street1")
                     v : getattr _ "_address_street1" = v).
    + rewrite lookup_insert_ne by discriminate. rewrite lookup_insert_eq.
      unfold self1.
      now rewrite (getattr_insert_eq self (String.append "_address_" "city")
                     v : getattr _ "_address_city" = v).
Qed.

(** X16. The [Address] that an assignment creates gets the street and the
    city only: a second street line given before, while there was no
    [Address] yet, stays in the hidden attribute and is not carried over,
    and [address_street2] reads as [None] once the [Address] is there. *)
Theorem hidden_street2_is_not_carried_over (self : gmap string value)
    (rest : string) (v : value) (addresses : gmap Z (gmap string value)) :
  Address_default "street2" = Some VNone ->
  getattr self "address" = VNone ->
  let self1 := <[String.append "_address_" rest := v]> self in
  getattr self1 "_address_street1" <> VNone ->
  getattr self1 "_address_city" <> VNone ->
  exists self' addresses',
    __setattr__ self (String.append "address_" rest) v addresses
    = Ok (self', addresses') /\
    self' !! "_address_street2" = self1 !! "_address_street2" /\
    __getattr__ Address_default self' "address_street2" addresses' = Ok VNone.
Proof.
  intros Hdefault Ha self1 Hs Hc.
  destruct (setattr_creates self rest v addresses Ha Hs Hc) as [_ Heq].
  eexists _, _. split; [exact Heq|]. fold self1. split.
  - now rewrite lookup_insert_ne by discriminate.
  - unfold __getattr__. simpl String.prefix. cbv iota.
    rewrite getattr_insert_eq. simpl truthy. cbv iota.
    rewrite lookup_insert_eq. simpl.
    rewrite !lookup_insert_ne by discriminate.
    now rewrite lookup_empty, Hdefault.
Qed.

End GetAttr.

(** *** The properties on a new party address *)

(** The street of a new party address reads as it was set. *)
Lemma setattr_then_getattr_witness :
  (getattr __new__ "address" = VNone /\ "street1" = "street1") /\
  exists self' addresses',
    __setattr__ __new__ "address_street1" (VUnicode "Main Street") ∅
    = Ok (self', addresses') /\
    __getattr__ (fun _ => Some VNone) self' "address_street1" addresses'
    = Ok (VUnicode "Main Street").
Proof.
  assert (Ha : getattr __new__ "address" = VNone).
  { unfold __new__. rewrite !getattr_insert_ne by discriminate.
    unfold getattr. now rewrite lookup_empty. }
  split; [now split|].
  exact (setattr_then_getattr (fun _ => Some VNone) __new__ "street1"
           (VUnicode "Main Street") ∅
           (or_intror (conj Ha (or_introl eq_refl)))).
Defined.

(** A party address with a street and a second street line gets its
    city. *)
Lemma hidden_street2_is_not_carried_over_witness :
  let self : gmap string value :=
    <["_address_street1" := VUnicode "Main Street"]>
      (<["_address_street2" := VUnicode "Box 4"]> ∅) in
  ((fun _ : string => Some VNone) "street2" = Some VNone /\
   getattr self "address" = VNone /\
   getattr (<[String.append "_address_" "city" := VEntity 3]> self)
     "_address_street1" <> VNone /\
   getattr (<[String.append "_address_" "city" := VEntity 3]> self)
     "_address_city" <> VNone) /\
  exists self' addresses',
    __setattr__ self "address_city" (VEntity 3) ∅ = Ok (self', addresses') /\
    self' !! "_address_street2" = Some (VUnicode "Box 4") /\
    __getattr__ (fun _ => Some VNone) self' "address_street2" addresses'
    = Ok VNone.
Proof.
  intros self.
  assert (Ha : getattr self "address" = VNone).
  { unfold self. rewrite !getattr_insert_ne by discriminate.
    unfold getattr. now rewrite lookup_empty. }
  assert (Hs : getattr (<[String.append "_address_" "city" := VEntity 3]> self)
                 "_address_street1" <> VNone).
  { rewrite getattr_insert_ne by discriminate. unfold self.
    rewrite (getattr_insert_eq _ "_address_street1"). discriminate. }
  assert (Hc : getattr (<[String.append "_address_" "city" := VEntity 3]> self)
                 "_address_city" <> VNone).
  { rewrite (getattr_insert_eq self (String.append "_address_" "city")
               (VEntity 3) : getattr _ "_address_city" = VEntity 3).
    discriminate. }
  split; [now repeat split|].
  destruct (hidden_street2_is_not_carried_over (fun _ => Some VNone) self
              "city" (VEntity 3) ∅ eq_refl Ha Hs Hc)
    as (self' & addresses' & Heq & Hhidden & Hread).
  exists self', addresses'. split; [exact Heq|]. split; [|exact Hread].
  rewrite Hhidden. rewrite lookup_insert_ne by discriminate. unfold self.
  rewrite lookup_insert_ne by discriminate. now rewrite lookup_insert_eq.
Defined.

End PartyAddressFacts.

(** ** The cells and the header of the import table *)

Module TableFacts.
Import InputTableModel.

Lemma getitem_inside {A : Type} (l : list A) (i : nat) (a : A) :
  l !! i = Some a -> getitem l (Z.of_nat i) = Ok a.
Proof.
  intros Hl. pose proof (lookup_lt_Some _ _ _ Hl) as Hlt. unfold getitem.
  destruct (Z.of_nat i <? 0)%Z eqn:Hneg; [apply Z.ltb_lt in Hneg; lia|].
  destruct ((0 <=? Z.of_nat i) && (Z.of_nat i <? Z.of_nat (length l)))%Z
    eqn:Hin.
  - now rewrite Nat2Z.id, Hl.
  - apply andb_false_iff in Hin as [Hin|Hin];
      [apply Z.leb_gt in Hin|apply Z.ltb_ge in Hin]; lia.
Qed.

Lemma getitem_outside {A : Type} (l : list A) (i : nat) :
  (length l <= i)%nat -> getitem l (Z.of_nat i) = Raise IndexError.
Proof.
  intros Hle. unfold getitem.
  destruct (Z.of_nat i <? 0)%Z eqn:Hneg; [apply Z.ltb_lt in Hneg; lia|].
  destruct ((0 <=? Z.of_nat i) && (Z.of_nat i <? Z.of_nat (length l)))%Z
    eqn:Hin; [|reflexivity].
  apply andb_true_iff in Hin as [_ Hin]. apply Z.ltb_lt in Hin. lia.
Qed.

(** X18. On a table whose rows are all at least as long as the first one,
    [data] returns the cell, without raising, for the display role at every
    valid index within [rowCount] rows and [columnCount] columns. *)
Theorem data_within_counts (self : t) (n : nat) (index : QModelIndex) :
  columnCount self = Ok n ->
  Forall (fun cells => (n <= length cells)%nat) (arraydata self) ->
  isValid index = true ->
  (0 <= row index < Z.of_nat (rowCount self))%Z ->
  (0 <= column index < Z.of_nat n)%Z ->
  exists cells cell,
    arraydata self !! Z.to_nat (row index) = Some cells /\
    cells !! Z.to_nat (column index) = Some cell /\
    data self index DisplayRole = Ok (Some cell).
Proof.
  intros _ Hrect Hvalid Hrow Hcol. unfold rowCount in Hrow.
  destruct (lookup_lt_is_Some_2 (arraydata self) (Z.to_nat (row index)))
    as [cells Hcells]; [lia|].
  assert (Hlen : (n <= length cells)%nat).
  { rewrite List.Forall_forall in Hrect. apply Hrect.
    apply list_elem_of_In, list_elem_of_lookup. now exists (Z.to_nat (row index)). }
  destruct (lookup_lt_is_Some_2 cells (Z.to_nat (column index)))
    as [cell Hcell]; [lia|].
  exists cells, cell. split; [exact Hcells|]. split; [exact Hcell|].
  unfold data. rewrite Hvalid. simpl.
  rewrite <- (Z2Nat.id (row index)) by lia.
  rewrite (getitem_inside _ _ _ Hcells). simpl.
  rewrite <- (Z2Nat.id (column index)) by lia.
  now rewrite (getitem_inside _ _ _ Hcell).
Qed.

(** X19. A row that is shorter than the first one makes [data] raise
    [IndexError] at a valid index within [rowCount] rows and
    [columnCount] columns: the cells the row lacks. *)
Theorem data_raises_on_short_row (self : t) (n r : nat)
    (cells : list string) :
  columnCount self = Ok n ->
  arraydata self !! r = Some cells ->
  (length cells < n)%nat ->
  exists index,
    isValid index = true /\
    (0 <= row index < Z.of_nat (rowCount self))%Z /\
    (0 <= column index < Z.of_nat n)%Z /\
    data self index DisplayRole = Raise IndexError.
Proof.
  intros _ Hcells Hshort.
  exists (mkIndex true (Z.of_nat r) (Z.of_nat (length cells))). simpl.
  pose proof (lookup_lt_Some _ _ _ Hcells) as Hlt. unfold rowCount.
  split; [reflexivity|]. split; [lia|]. split; [lia|].
  unfold data. simpl. rewrite (getitem_inside _ _ _ Hcells). simpl.
  now rewrite getitem_outside.
Qed.

(** X20. [headerData] gives the name of a column of the header for the
    horizontal display role, and nothing for the vertical header; when the
    first row of the data has more columns than the header has names, it
    raises [IndexError] for a column within [columnCount]. *)
Theorem headerData_within_header (self : t) :
  (forall (col : nat) name, headerdata self !! col = Some name ->
     headerData self (Z.of_nat col) Horizontal DisplayRole = Ok (Some name)) /\
  (forall col role, headerData self col Vertical role = Ok None) /\
  (forall n, columnCount self = Ok n ->
     (length (headerdata self) < n)%nat ->
     exists col, (0 <= col < Z.of_nat n)%Z /\
       headerData self col Horizontal DisplayRole = Raise IndexError).
Proof.
  split; [|split].
  - intros col name Hname. unfold headerData. simpl.
    now rewrite (getitem_inside _ _ _ Hname).
  - reflexivity.
  - intros n _ Hshort. exists (Z.of_nat (length (headerdata self))).
    split; [lia|]. unfold headerData. simpl.
    now rewrite getitem_outside.
Qed.

(** The table of a file with a short second row, under the header of the
    wizard. *)
Lemma data_raises_on_short_row_witness :
  let self := __init__ [["Janssens"; "Marie"; "00000000097"; "F"];
                        ["Peeters"; "Tom"]]
                ["naam"; "voornaam"; "rijksregisternr"; "geslacht"] in
  (columnCount self = Ok 4%nat /\
   arraydata self !! 1%nat = Some ["Peeters"; "Tom"] /\
   (length ["Peeters"; "Tom"] < 4)%nat) /\
  exists index,
    isValid index = true /\
    (0 <= row index < Z.of_nat (rowCount self))%Z /\
    (0 <= column index < 4)%Z /\
    data self index DisplayRole = Raise IndexError.
Proof.
  intros self.
  assert (Hcount : columnCount self = Ok 4%nat) by reflexivity.
  assert (Hrow : arraydata self !! 1%nat = Some ["Peeters"; "Tom"])
    by reflexivity.
  assert (Hshort : (length ["Peeters"; "Tom"] < 4)%nat) by (simpl; lia).
  split; [now repeat split|].
  exact (data_raises_on_short_row self 4 1 ["Peeters"; "Tom"] Hcount Hrow
           Hshort).
Defined.

(** A table of two full rows, read at its last cell. *)
Lemma data_within_counts_witness :
  let self := __init__ [["Janssens"; "Marie"; "00000000097"; "F"];
                        ["Peeters"; "Tom"; "00000000295"; "M"]]
                ["naam"; "voornaam"; "rijksregisternr"; "geslacht"] in
  (columnCount self = Ok 4%nat /\
   Forall (fun cells => (4 <= length cells)%nat) (arraydata self)) /\
  exists cells cell,
    arraydata self !! Z.to_nat 1 = Some cells /\
    cells !! Z.to_nat 3 = Some cell /\
    data self (mkIndex true 1 3) DisplayRole = Ok (Some cell).
Proof.
  intros self.
  assert (Hcount : columnCount self = Ok 4%nat) by reflexivity.
  assert (Hrect : Forall (fun cells => (4 <= length cells)%nat)
                    (arraydata self)).
  { repeat constructor. }
  split; [now split|].
  refine (data_within_counts self 4 (mkIndex true 1 3) Hcount Hrect eq_refl
            _ _); unfold self, rowCount; simpl; lia.
Defined.

End TableFacts.

(** ** The application of the test cases *)

Module TestFacts.
Import CamelotTest.

(** X21. [get_application] hands out one application: a call returns an
    application without raising and constructs one only when the list is
    empty; a call after it returns the same application and leaves the
    state as it is. *)
Theorem get_application_singleton (st : state) :
  let r := fst (get_application st) in
  let st1 := snd (get_application st) in
  (exists app, r = Ok app) /\
  (_application_ st = [] ->
   constructed st1 = S (constructed st) /\ r = Ok (constructed st)) /\
  (_application_ st <> [] -> st1 = st) /\
  get_application st1 = (r, st1).
Proof.
  unfold get_application. destruct st as [[|app apps] n]; simpl.
  - split; [now exists n|]. split; [now split|]. split; [|reflexivity].
    intros Hne. now destruct Hne.
  - split; [now exists app|]. split; [discriminate|]. now split.
Qed.

End TestFacts.
